(** * Daily user narratives: a shallow embedding of
      [src/data_processing/data_processing.py]

    The development follows the script top-down:

    - [PyStr]     the Python string primitives the script calls
                  ([str.split], [str.join], integer and [strftime] formatting);
    - [Stable]    the stable sort behind [DataFrame.sort_values] on several
                  columns and behind [Counter.most_common];
    - [Summary]   [create_summary_from_events] with its closure
                  [flush_web_buffer];
    - [Pipeline]  [generate_narratives]: normalisation of the three sources,
                  the left join against the role map, the merge and the
                  per-day grouping;
    - [Directory] [process_ldap_data];
    - [Segments]  the narrative seen as single rows and runs of web rows;
    - [Machine]   the summariser as a transition relation;
    - [Cells]     domain extraction on a cell of the [url] column, which may
                  be empty.

    Representation choices.  A data frame is the list of its rows, in row
    order.  A column read from a CSV file holds strings.  A missing value
    (pandas [NaN]) is [None]; it arises where the script itself produces it:
    [user_id] when the [user] field has no second component, [role] for a row
    the left join does not match.  The [url] column exists only for the web
    source, so it is carried by the [http] constructor of the activity type.
    A timestamp is the number of nanoseconds since the epoch, as pandas
    stores it; [pd.to_datetime] itself is not modelled, the raw rows carry
    the parsed value. *)

From Stdlib Require Import List Bool Arith ZArith Lia.
From Stdlib Require Import Ascii String DecimalString.
From Stdlib Require Import Sorting.Sorted Sorting.Permutation.
From Stdlib Require Import Structures.OrderedTypeEx.
Import ListNotations.

Local Open Scope string_scope.
Local Open Scope list_scope.

(* ================================================================== *)
(** * Python string primitives *)
(* ================================================================== *)

Module PyStr.

(** [l[0]] and [l[-1]]: [None] stands for the [IndexError] Python raises on
    an empty list. *)
Definition first {A} (l : list A) : option A := hd_error l.

Fixpoint last {A} (l : list A) : option A :=
  match l with
  | [] => None
  | [x] => Some x
  | _ :: l' => last l'
  end.

(** Prepend a character to the component being read. *)
Definition cons_head (c : ascii) (l : list string) : list string :=
  match l with
  | [] => [String c ""]
  | h :: t => String c h :: t
  end.

(** [s.split(sep)] for a non-empty separator: occurrences of [sep] are found
    left to right and do not overlap.  [skip] counts the characters of an
    occurrence already matched that are still to be passed over. *)
Fixpoint split_from (sep s : string) (skip : nat) : list string :=
  match s with
  | EmptyString => [""]
  | String c s' =>
      match skip with
      | S k => split_from sep s' k
      | O =>
          if prefix sep s
          then "" :: split_from sep s' (String.length sep - 1)
          else cons_head c (split_from sep s' 0)
      end
  end.

Definition split (sep s : string) : list string := split_from sep s 0.

(** [sep.join(l)] *)
Definition join (sep : string) (l : list string) : string := concat sep l.

(** Does [sep] occur in [s]? ([sep in s]) *)
Fixpoint contains (sep s : string) : bool :=
  match s with
  | EmptyString => prefix sep s
  | String _ s' => prefix sep s || contains sep s'
  end.

(** The characters of [s] before the first occurrence of [c] (all of [s]
    when [c] does not occur). *)
Fixpoint before_first (c : ascii) (s : string) : string :=
  match s with
  | EmptyString => ""
  | String a s' => if Ascii.eqb a c then "" else String a (before_first c s')
  end.

(** [str(n)] / [f"{n}"] for a non-negative integer. *)
Definition of_nat (n : nat) : string := NilZero.string_of_uint (Nat.to_uint n).

(** Two decimal digits, zero padded ([%H], [%M], [%S]). *)
Definition digit (n : nat) : ascii := ascii_of_nat (48 + n).

Definition two_digits (n : nat) : string :=
  String (digit ((n / 10) mod 10)) (String (digit (n mod 10)) "").

Definition ns_per_second : Z := 1000000000.
Definition ns_per_day : Z := 86400 * ns_per_second.

(** [ts.strftime('%H:%M:%S')] on a timestamp in nanoseconds since the epoch. *)
Definition strftime_HMS (ts : Z) : string :=
  let secs := Z.to_nat ((ts / ns_per_second) mod 86400) in
  two_digits (secs / 3600) ++ ":" ++ two_digits ((secs / 60) mod 60) ++ ":"
    ++ two_digits (secs mod 60).

(** A time of day as a timestamp on the epoch's first day. *)
Definition hms (h m s : Z) : Z := ((h * 60 + m) * 60 + s) * ns_per_second.

End PyStr.

(* ================================================================== *)
(** * Stable sorting *)
(* ================================================================== *)

(** [sort_values] on several columns goes through a lexicographic indirect
    sort, and [Counter.most_common(n)] is [sorted(..., reverse=True)[:n]];
    both are stable.  A stable sort is determined by its comparison, and
    insertion sort is the simplest one: the element met first in the input is
    placed in front of the elements that compare equal to it. *)
Module Stable.
Section Sort.
Context {A : Type} (leb : A -> A -> bool).

Fixpoint insert (x : A) (l : list A) : list A :=
  match l with
  | [] => [x]
  | y :: l' => if leb x y then x :: l else y :: insert x l'
  end.

Fixpoint sort (l : list A) : list A :=
  match l with
  | [] => []
  | x :: l' => insert x (sort l')
  end.

(** [x] comes before [y] in the output of a stable sort whose input lists
    its elements by increasing [rank]: either [x] is strictly smaller for
    the comparison, or they compare equal and [x] has the smaller rank. *)
Definition before (rank : A -> nat) (x y : A) : Prop :=
  leb x y = true /\ (leb y x = true -> rank x < rank y).
End Sort.
End Stable.

(* ================================================================== *)
(** * The summariser: [create_summary_from_events] *)
(* ================================================================== *)

Module Summary.

(** The five values of the [activity_type] column; a web row carries its
    [url]. *)
Inductive activity : Type :=
  | logon
  | logoff
  | device_connect
  | device_disconnect
  | http (url : string).

Record Event : Type := {
  timestamp : Z;
  user_id : option string;
  role : string;
  pc : string;
  activity_type : activity
}.

Definition is_http (a : activity) : bool :=
  match a with http _ => true | _ => false end.

(** [item['url']]; only read on buffered rows, which are web rows. *)
Definition url (e : Event) : string :=
  match activity_type e with http u => u | _ => "" end.

(** [f"{user_id}"]: a missing value prints as [nan]. *)
Definition show_user (u : option string) : string :=
  match u with Some s => s | None => "nan" end.

(** ** [Series.mode()] *)

Definition count (x : string) (l : list string) : nat := count_occ string_dec l x.

Definition max_count (l : list string) : nat :=
  list_max (map (fun x => count x l) l).

(** The most frequent values, sorted in increasing order. *)
Definition mode (l : list string) : list string :=
  Stable.sort String.leb
    (nodup string_dec (filter (fun x => Nat.eqb (count x l) (max_count l)) l)).

(** [events['pc'].mode().iloc[0] if not events['pc'].empty else 'Unknown PC'].
    [iloc[0]] raises on an empty series; [header_pc_defined] shows that the
    mode of a non-empty column is never empty. *)
Definition header_pc (pcs : list string) : string :=
  match pcs with
  | [] => "Unknown PC"
  | _ => match PyStr.first (mode pcs) with Some p => p | None => "" end
  end.

(** The two readings of the tie-break written in the specification, for
    comparison with [header_pc]: the first value of the column, in bucket
    order, among those of maximal count; and the first value whose running
    count, while the bucket is read in order, reaches the maximal count. *)
Definition first_most_frequent (l : list string) : option string :=
  find (fun x => Nat.eqb (count x l) (max_count l)) l.

Fixpoint first_reaching (m : nat) (seen l : list string) : option string :=
  match l with
  | [] => None
  | x :: l' =>
      if Nat.eqb (S (count x seen)) m then Some x
      else first_reaching m (x :: seen) l'
  end.

Definition first_reaching_max (l : list string) : option string :=
  first_reaching (max_count l) [] l.

(** ** [collections.Counter] and [most_common] *)

(** A counter is a dictionary: its items are kept in insertion order, that
    is, in order of first occurrence. *)
Definition counter : Type := list (string * nat).

Fixpoint counter_add (k : string) (c : counter) : counter :=
  match c with
  | [] => [(k, 1)]
  | (k', n) :: c' =>
      if String.eqb k' k then (k', S n) :: c' else (k', n) :: counter_add k c'
  end.

Definition Counter (l : list string) : counter :=
  fold_left (fun c k => counter_add k c) l [].

(** [sorted(items, key=itemgetter(1), reverse=True)[:n]] *)
Definition by_count_desc (a b : string * nat) : bool := Nat.leb (snd b) (snd a).

Definition most_common (n : nat) (c : counter) : list (string * nat) :=
  firstn n (Stable.sort by_count_desc c).

(** The distinct values of a list in order of first occurrence, and the
    position at which a value first occurs: the order in which a counter
    keeps its keys. *)
Fixpoint first_occurrences (l : list string) : list string :=
  match l with
  | [] => []
  | x :: l' => x :: filter (fun y => negb (String.eqb x y)) (first_occurrences l')
  end.

Fixpoint first_index (x : string) (l : list string) : nat :=
  match l with
  | [] => 0
  | y :: l' => if String.eqb y x then 0 else S (first_index x l')
  end.

(** [a] is listed before [b]: a larger count, or the same count and an
    earlier first occurrence in [l]. *)
Definition ranks_before (l : list string) (a b : string * nat) : Prop :=
  snd b < snd a \/ (snd a = snd b /\ first_index (fst a) l < first_index (fst b) l).

(** ** [flush_web_buffer] *)

(** [url.split('//')[-1].split('/')[0]]; [None] would be an [IndexError]. *)
Definition extract_domain (u : string) : option string :=
  match PyStr.last (PyStr.split "//" u) with
  | Some rest => PyStr.first (PyStr.split "/" rest)
  | None => None
  end.

Definition url_domain (u : string) : string :=
  match extract_domain u with Some d => d | None => "" end.

Definition domain_item (item : string * nat) : string :=
  fst item ++ " (" ++ PyStr.of_nat (snd item) ++ " times)".

Definition domains (buffer : list Event) : list string :=
  map (fun item => url_domain (url item)) buffer.

Definition top_domains (buffer : list Event) : list (string * nat) :=
  most_common 3 (Counter (domains buffer)).

(** The sentence appended by a flush of the non-empty buffer [buffer], whose
    first element is [first]. *)
Definition web_summary (first : Event) (buffer : list Event) : string :=
  let start_time := PyStr.strftime_HMS (timestamp first) in
  let end_time := PyStr.strftime_HMS (timestamp (List.last buffer first)) in
  let total_visits := List.length buffer in
  let top_domains_str := PyStr.join ", " (map domain_item (top_domains buffer)) in
  "Between " ++ start_time ++ " and " ++ end_time ++ ", visited "
    ++ PyStr.of_nat total_visits ++ " websites, including "
    ++ top_domains_str ++ ".".

(** The state the loop works on: [narrative_parts] and
    [web_activity_buffer]. *)
Definition state : Type := (list string * list Event)%type.

Definition flush_web_buffer (st : state) : state :=
  let '(narrative_parts, web_activity_buffer) := st in
  match web_activity_buffer with
  | [] => st
  | first :: _ =>
      (narrative_parts ++ [web_summary first web_activity_buffer], [])
  end.

(** ** The loop over the events *)

(** [f"{what} {time_str}."], the shape of the four sentences for single
    events. *)
Definition at_time (what time_str : string) : string :=
  what ++ " " ++ time_str ++ ".".

Definition loop_body (st : state) (event : Event) : state :=
  let time_str := PyStr.strftime_HMS (timestamp event) in
  let st := if is_http (activity_type event) then st else flush_web_buffer st in
  let '(narrative_parts, web_activity_buffer) := st in
  match activity_type event with
  | logon =>
      (narrative_parts ++ [at_time "Logged on at" time_str], web_activity_buffer)
  | logoff =>
      (narrative_parts ++ [at_time "Logged off at" time_str], web_activity_buffer)
  | device_connect =>
      (narrative_parts ++ [at_time "Connected a USB device at" time_str],
       web_activity_buffer)
  | device_disconnect =>
      (narrative_parts ++ [at_time "Disconnected a USB device at" time_str],
       web_activity_buffer)
  | http _ => (narrative_parts, web_activity_buffer ++ [event])
  end.

Definition header (first_event : Event) (events : list Event) : string :=
  "User " ++ show_user (user_id first_event) ++ " (Role: " ++ role first_event
    ++ ") on " ++ header_pc (map pc events) ++ ":".

(** [narrative_parts] as it stands when the function joins it. *)
Definition narrative_parts (events : list Event) : list string :=
  match events with
  | [] => []
  | first_event :: _ =>
      let st := fold_left loop_body events ([header first_event events], []) in
      fst (flush_web_buffer st)
  end.

Definition create_summary_from_events (events : list Event) : string :=
  match events with
  | [] => ""
  | _ => PyStr.join " " (narrative_parts events)
  end.

(** ** What the narrative is made of *)

(** The sentences after the header are of two kinds: the sentence of a
    single row, and the summary of one flushed buffer.  This view of
    [narrative_parts] is used to state how web rows are accounted for. *)
Inductive emission : Type :=
  | Discrete (sentence : string)
  | WebRun (first : Event) (buffer : list Event).

Definition render (m : emission) : string :=
  match m with
  | Discrete sentence => sentence
  | WebRun first buffer => web_summary first buffer
  end.

(** The rows a sentence accounts for, and the [{total_visits}] it prints. *)
Definition run_events (m : emission) : list Event :=
  match m with
  | Discrete _ => []
  | WebRun _ buffer => buffer
  end.

Definition run_total (m : emission) : nat := List.length (run_events m).

Definition web_rows (events : list Event) : list Event :=
  filter (fun e => is_http (activity_type e)) events.

End Summary.

(* ================================================================== *)
(** * The pipeline: [generate_narratives] *)
(* ================================================================== *)

(** Rows of [logon.csv] and [device.csv] (the columns the script reads). *)
Module Raw.
Record row : Type := {
  date : Z;
  user : string;
  pc : string;
  activity : string
}.
End Raw.

(** Rows of [http.csv], read with the column names the script supplies. *)
Module RawHttp.
Record row : Type := {
  id : string;
  date : Z;
  user : string;
  pc : string;
  url : string;
  content : string
}.
End RawHttp.

Module Pipeline.
Import Summary.

(** The [user_role_map] frame: columns [user_id] and [role]. *)
Definition role_map : Type := list (string * option string).

(** [df['user'].str.split('/').str[1]]: the element of index 1, a missing
    value when the list is too short. *)
Definition extract_user_id (user : string) : option string :=
  nth_error (PyStr.split "/" user) 1.

Definition with_user_id {A} (user : A -> string) (df : list A)
  : list (A * option string) :=
  map (fun r => (r, extract_user_id (user r))) df.

Definition key_matches (k : option string) (entry : string * option string) : bool :=
  match k with
  | Some u => String.eqb u (fst entry)
  | None => false
  end.

(** [pd.merge(df, user_role_map, on='user_id', how='left')]: the left rows in
    their order, each paired with the [role] of every matching row of the
    map, or once with a missing [role] when none matches. *)
Definition merge_left {A} (left : list (A * option string)) (right : role_map)
  : list (A * option string * option string) :=
  flat_map
    (fun lrow =>
       match filter (key_matches (snd lrow)) right with
       | [] => [(lrow, None)]
       | matches => map (fun entry => (lrow, snd entry)) matches
       end)
    left.

(** [.fillna({'role': 'Unknown'})] *)
Definition fillna_role (r : option string) : string :=
  match r with Some s => s | None => "Unknown" end.

Definition logon_activity (x : string) : activity :=
  if String.eqb x "Logon" then logon else logoff.

Definition device_activity (x : string) : activity :=
  if String.eqb x "Connect" then device_connect else device_disconnect.

Definition logon_event (r : Raw.row * option string * option string) : Event :=
  let '(row, uid, rl) := r in
  {| timestamp := Raw.date row; user_id := uid; role := fillna_role rl;
     pc := Raw.pc row; activity_type := logon_activity (Raw.activity row) |}.

Definition device_event (r : Raw.row * option string * option string) : Event :=
  let '(row, uid, rl) := r in
  {| timestamp := Raw.date row; user_id := uid; role := fillna_role rl;
     pc := Raw.pc row; activity_type := device_activity (Raw.activity row) |}.

Definition http_event (r : RawHttp.row * option string * option string) : Event :=
  let '(row, uid, rl) := r in
  {| timestamp := RawHttp.date row; user_id := uid; role := fillna_role rl;
     pc := RawHttp.pc row; activity_type := http (RawHttp.url row) |}.

Definition logon_events (m : role_map) (logon_df : list Raw.row) : list Event :=
  map logon_event (merge_left (with_user_id Raw.user logon_df) m).

Definition device_events (m : role_map) (device_df : list Raw.row) : list Event :=
  map device_event (merge_left (with_user_id Raw.user device_df) m).

Definition http_events (m : role_map) (http_df : list RawHttp.row) : list Event :=
  map http_event (merge_left (with_user_id RawHttp.user http_df) m).

(** [pd.concat(all_events, ignore_index=True)] *)
Definition all_events (m : role_map) (logon_df device_df : list Raw.row)
    (http_df : list RawHttp.row) : list Event :=
  logon_events m logon_df ++ device_events m device_df ++ http_events m http_df.

(** ** [sort_values(by=['user_id', 'timestamp'])] *)

Definition user_eqb (u v : option string) : bool :=
  match u, v with
  | Some a, Some b => String.eqb a b
  | None, None => true
  | _, _ => false
  end.

(** Missing values are placed last. *)
Definition user_leb (u v : option string) : bool :=
  match u, v with
  | Some a, Some b => String.leb a b
  | Some _, None => true
  | None, Some _ => false
  | None, None => true
  end.

Definition key_leb (e1 e2 : Event) : bool :=
  if user_eqb (user_id e1) (user_id e2)
  then Z.leb (timestamp e1) (timestamp e2)
  else user_leb (user_id e1) (user_id e2).

Definition sort_values (df : list Event) : list Event := Stable.sort key_leb df.

(** The rows of one sort key. *)
Definition same_key (u : option string) (t : Z) (e : Event) : bool :=
  user_eqb (user_id e) u && Z.eqb (timestamp e) t.

Definition final_df (m : role_map) (logon_df device_df : list Raw.row)
    (http_df : list RawHttp.row) : list Event :=
  sort_values (all_events m logon_df device_df http_df).

(** ** [groupby(['user_id', 'date_only']).apply(...)] *)

(** [timestamp.dt.date], as a day number. *)
Definition date_only (ts : Z) : Z := ts / PyStr.ns_per_day.

(** A row whose [user_id] is missing has no group. *)
Definition group_key (e : Event) : option (string * Z) :=
  match user_id e with
  | Some u => Some (u, date_only (timestamp e))
  | None => None
  end.

Definition group_eqb (k1 k2 : string * Z) : bool :=
  String.eqb (fst k1) (fst k2) && Z.eqb (snd k1) (snd k2).

Definition group_leb (k1 k2 : string * Z) : bool :=
  if String.eqb (fst k1) (fst k2) then Z.leb (snd k1) (snd k2)
  else String.leb (fst k1) (fst k2).

Definition in_group (k : string * Z) (e : Event) : bool :=
  match group_key e with
  | Some k' => group_eqb k k'
  | None => false
  end.

Fixpoint distinct (ks : list (string * Z)) : list (string * Z) :=
  match ks with
  | [] => []
  | k :: ks' => k :: filter (fun k' => negb (group_eqb k k')) (distinct ks')
  end.

Definition group_keys (df : list Event) : list (string * Z) :=
  Stable.sort group_leb
    (distinct (flat_map (fun e => match group_key e with
                                  | Some k => [k]
                                  | None => []
                                  end) df)).

(** The groups in key order, each with its rows in frame order. *)
Definition groupby (df : list Event) : list ((string * Z) * list Event) :=
  map (fun k => (k, filter (in_group k) df)) (group_keys df).

Record NarrativeRecord : Type := {
  date : Z;
  user : string;
  narrative : string
}.

(** The records returned, one per group.  (When the frame has no group at
    all, [apply] gives an empty frame on which [reset_index(name=...)] fails;
    the list is then empty, and nothing below rests on that case.) *)
Definition generate_narratives (user_role_map : role_map)
    (logon_df device_df : list Raw.row) (http_df : list RawHttp.row)
  : list NarrativeRecord :=
  map (fun g => {| date := snd (fst g); user := fst (fst g);
                   narrative := create_summary_from_events (snd g) |})
      (groupby (final_df user_role_map logon_df device_df http_df)).

End Pipeline.

(* ================================================================== *)
(** * The role directory: [process_ldap_data] *)
(* ================================================================== *)

Module Directory.
Import Pipeline.

(** A row of an LDAP file, reduced to the two columns the function keeps:
    [user_id] and [Role] (renamed [role]). *)
Definition ldap_row : Type := (string * option string)%type.

Definition same_user (r r' : ldap_row) : bool := String.eqb (fst r) (fst r').

(** [drop_duplicates(subset='user_id', keep='last')]: a row is kept when no
    later row has its [user_id]; the rows kept stay in their order. *)
Fixpoint drop_duplicates_last (rows : list ldap_row) : list ldap_row :=
  match rows with
  | [] => []
  | r :: rest =>
      if existsb (same_user r) rest then drop_duplicates_last rest
      else r :: drop_duplicates_last rest
  end.

(** The argument lists the rows of each file found by [glob], in the order
    in which [pd.concat] reads them. *)
Definition process_ldap_data (ldap_files : list (list ldap_row)) : role_map :=
  match ldap_files with
  | [] => []
  | _ => drop_duplicates_last (List.concat ldap_files)
  end.

End Directory.

(* ================================================================== *)
(** * The narrative as single rows and runs of web rows *)
(* ================================================================== *)

Module Segments.
Import Summary.

(** A bucket cut into pieces: a row that is not a web row, or a run of web
    rows that were in the buffer together when it was flushed. *)
Inductive segment : Type :=
  | Single (event : Event)
  | Run (first : Event) (buffer : list Event).

(** The sentence the loop appends for a row that is not a web row. *)
Definition event_sentence (event : Event) : string :=
  let time_str := PyStr.strftime_HMS (timestamp event) in
  match activity_type event with
  | logon => at_time "Logged on at" time_str
  | logoff => at_time "Logged off at" time_str
  | device_connect => at_time "Connected a USB device at" time_str
  | device_disconnect => at_time "Disconnected a USB device at" time_str
  | http _ => ""
  end.

Definition render_segment (s : segment) : string :=
  match s with
  | Single event => event_sentence event
  | Run first buffer => web_summary first buffer
  end.

Definition segment_events (s : segment) : list Event :=
  match s with
  | Single event => [event]
  | Run _ buffer => buffer
  end.

(** The [{total_visits}] a piece prints (none for a single row). *)
Definition segment_total (s : segment) : nat :=
  match s with
  | Single _ => 0
  | Run _ buffer => List.length buffer
  end.

Definition is_run (s : segment) : bool :=
  match s with Run _ _ => true | Single _ => false end.

(** A single row is not a web row; a run is a non-empty list of web rows,
    [first] being its first row. *)
Definition well_formed (s : segment) : Prop :=
  match s with
  | Single event => is_http (activity_type event) = false
  | Run first buffer =>
      (exists rest, buffer = first :: rest) /\
      forallb (fun e => is_http (activity_type e)) buffer = true
  end.

(** No two runs follow each other: every run is maximal. *)
Fixpoint separated (segs : list segment) : Prop :=
  match segs with
  | [] => True
  | s :: tl =>
      match tl with
      | s' :: _ => is_run s && is_run s' = false
      | [] => True
      end /\ separated tl
  end.

End Segments.

(* ================================================================== *)
(** * The summariser as a transition relation *)
(* ================================================================== *)

(** The same function read as a machine: what one call may do, step by
    step.  Nothing in a transition refers to anything but the bucket and the
    two local lists, and the one place where a library leaves an order
    unspecified (the hash table behind [Series.mode]) is left unspecified
    here too. *)
Module Machine.
Import Summary.

(** [Series.mode()]: the most frequent values are collected from a hash
    table, in whatever order [table] it yields them, and then sorted. *)
Inductive mode_returns (l : list string) : list string -> Prop :=
  | mode_sorted_table (table : list string) :
      NoDup table ->
      (forall x, In x table <-> In x l /\ count x l = max_count l) ->
      mode_returns l (Stable.sort String.leb table).

(** [flush_web_buffer()] *)
Inductive flushes : state -> state -> Prop :=
  | flush_nothing (parts : list string) :
      flushes (parts, []) (parts, [])
  | flush_summary (parts : list string) (first : Event) (rest : list Event) :
      flushes (parts, first :: rest)
              (parts ++ [web_summary first (first :: rest)], []).

(** One turn of the loop. *)
Inductive step : state -> Event -> state -> Prop :=
  | step_logon st event parts buffer :
      activity_type event = logon ->
      flushes st (parts, buffer) ->
      step st event
           (parts ++ [at_time "Logged on at" (PyStr.strftime_HMS (timestamp event))],
            buffer)
  | step_logoff st event parts buffer :
      activity_type event = logoff ->
      flushes st (parts, buffer) ->
      step st event
           (parts ++ [at_time "Logged off at" (PyStr.strftime_HMS (timestamp event))],
            buffer)
  | step_device_connect st event parts buffer :
      activity_type event = device_connect ->
      flushes st (parts, buffer) ->
      step st event
           (parts ++ [at_time "Connected a USB device at"
                              (PyStr.strftime_HMS (timestamp event))],
            buffer)
  | step_device_disconnect st event parts buffer :
      activity_type event = device_disconnect ->
      flushes st (parts, buffer) ->
      step st event
           (parts ++ [at_time "Disconnected a USB device at"
                              (PyStr.strftime_HMS (timestamp event))],
            buffer)
  | step_http parts buffer event u :
      activity_type event = http u ->
      step (parts, buffer) event (parts, buffer ++ [event]).

Inductive runs : state -> list Event -> state -> Prop :=
  | runs_done st : runs st [] st
  | runs_next st event st' events st'' :
      step st event st' -> runs st' events st'' -> runs st (event :: events) st''.

(** The header, once the machine [p] is known. *)
Definition header_on (first_event : Event) (p : string) : string :=
  "User " ++ show_user (user_id first_event) ++ " (Role: " ++ role first_event
    ++ ") on " ++ p ++ ":".

(** One call: the string returned for a bucket. *)
Inductive summarises : list Event -> string -> Prop :=
  | summarises_empty : summarises [] ""
  | summarises_bucket first_event rest modes p st parts buffer :
      mode_returns (map pc (first_event :: rest)) modes ->
      PyStr.first modes = Some p ->
      runs ([header_on first_event p], []) (first_event :: rest) st ->
      flushes st (parts, buffer) ->
      summarises (first_event :: rest) (PyStr.join " " parts).

End Machine.

(* ================================================================== *)
(** * Domain extraction on a cell of the [url] column *)
(* ================================================================== *)

Module Cells.
Import Summary.

Inductive py_error : Type :=
  | AttributeError
  | IndexError.

(** [item['url'].split('//')[-1].split('/')[0]] on the value of the cell: a
    string, or, for an empty field of [http.csv], the missing value, which
    is a float and has no [split]. *)
Definition domain_of_cell (cell : option string) : string + py_error :=
  match cell with
  | None => inr AttributeError
  | Some u =>
      match extract_domain u with
      | Some d => inl d
      | None => inr IndexError
      end
  end.

(** The list comprehension over the buffered cells: it ends at the first
    cell that raises. *)
Fixpoint domains_of_cells (cells : list (option string))
  : list string + py_error :=
  match cells with
  | [] => inl []
  | cell :: rest =>
      match domain_of_cell cell with
      | inr err => inr err
      | inl d =>
          match domains_of_cells rest with
          | inl ds => inl (d :: ds)
          | inr err => inr err
          end
      end
  end.

End Cells.

(* ================================================================== *)
(** * Facts about the string primitives *)
(* ================================================================== *)

Section PyStrFacts.
Import PyStr.

Lemma split_from_nonempty (sep s : string) (skip : nat) :
  split_from sep s skip <> [].
Proof.
  revert skip; induction s as [|c s IH]; intros skip; cbn [split_from].
  - discriminate.
  - destruct skip as [|k]; [|apply IH].
    destruct (prefix sep (String c s)); [discriminate|].
    specialize (IH 0). destruct (split_from sep s 0); [congruence|discriminate].
Qed.

Lemma last_defined {A} (l : list A) : l <> [] -> exists x, last l = Some x.
Proof.
  induction l as [|a l IH]; [congruence|intros _].
  destruct l as [|b l]; [now exists a|].
  destruct IH as [x Hx]; [discriminate|]. exists x. exact Hx.
Qed.

Lemma first_defined {A} (l : list A) : l <> [] -> exists x, first l = Some x.
Proof. destruct l as [|a l]; [congruence|]. intros _. now exists a. Qed.

(** Without an occurrence of the separator the split has one component. *)
Lemma split_from_absent (sep s : string) :
  contains sep s = false -> split_from sep s 0 = [s].
Proof.
  induction s as [|c s IH]; cbn [contains split_from]; intros H; [reflexivity|].
  apply orb_false_iff in H. destruct H as [Hp Hc].
  rewrite Hp, (IH Hc). reflexivity.
Qed.

Lemma prefix_char (c a : ascii) (s : string) :
  prefix (String c "") (String a s) = Ascii.eqb a c.
Proof.
  simpl. destruct (ascii_dec c a) as [->|Hne].
  - rewrite Ascii.eqb_refl. now destruct s.
  - symmetry. apply Ascii.eqb_neq. congruence.
Qed.

(** The first component of a split on one character. *)
Lemma first_split_char (c : ascii) (s : string) :
  first (split (String c "") s) = Some (before_first c s).
Proof.
  unfold split. induction s as [|a s IH]; [reflexivity|].
  cbn [split_from before_first]. rewrite prefix_char.
  destruct (Ascii.eqb a c); [reflexivity|].
  destruct (split_from (String c "") s 0) as [|h t]; [discriminate|].
  simpl in IH |- *. congruence.
Qed.

Example split_slash : split "/" "DTAA/ABC0174" = ["DTAA"; "ABC0174"].
Proof. reflexivity. Qed.

Example split_no_sep : split "/" "ABC0174" = ["ABC0174"].
Proof. reflexivity. Qed.

Example split_scheme :
  split "//" "http://example.com/a/b" = ["http:"; "example.com/a/b"].
Proof. reflexivity. Qed.

Example split_overlap : split "//" "a///b" = ["a"; "/b"].
Proof. reflexivity. Qed.

Example split_trailing : split "/" "a/" = ["a"; ""].
Proof. reflexivity. Qed.

Example strftime_ex : strftime_HMS (hms 9 5 0) = "09:05:00".
Proof. reflexivity. Qed.

Example of_nat_ex : of_nat 12 = "12".
Proof. reflexivity. Qed.
End PyStrFacts.

(* ================================================================== *)
(** * Facts about the stable sort *)
(* ================================================================== *)

Section StableFacts.
Context {A : Type} (leb : A -> A -> bool).
Import Stable.

Lemma insert_perm (x : A) (l : list A) : Permutation (insert leb x l) (x :: l).
Proof.
  induction l as [|y l IH]; simpl; [reflexivity|].
  destruct (leb x y); [reflexivity|].
  rewrite IH. apply perm_swap.
Qed.

Lemma sort_perm (l : list A) : Permutation (sort leb l) l.
Proof.
  induction l as [|x l IH]; simpl; [reflexivity|].
  rewrite insert_perm. now constructor.
Qed.

Lemma sort_In (l : list A) (x : A) : In x (sort leb l) <-> In x l.
Proof.
  split; apply Permutation_in; [|symmetry]; apply sort_perm.
Qed.

Lemma sort_length (l : list A) : List.length (sort leb l) = List.length l.
Proof. apply Permutation_length, sort_perm. Qed.

(** Stability.  [p] selects the rows of one key: any two of them compare
    as equal, so the one inserted is put in front. *)
Section Stability.
Variable p : A -> bool.
Hypothesis p_class : forall x y, p x = true -> p y = true -> leb x y = true.

Lemma filter_insert (x : A) (l : list A) :
  filter p (insert leb x l) = if p x then x :: filter p l else filter p l.
Proof.
  induction l as [|y l IH]; simpl; [reflexivity|].
  destruct (leb x y) eqn:Hxy; simpl; [reflexivity|].
  rewrite IH. destruct (p x) eqn:Hx, (p y) eqn:Hy; try reflexivity.
  rewrite (p_class x y Hx Hy) in Hxy. discriminate.
Qed.

Lemma sort_stable (l : list A) : filter p (sort leb l) = filter p l.
Proof.
  induction l as [|x l IH]; simpl; [reflexivity|].
  rewrite filter_insert, IH. reflexivity.
Qed.
End Stability.

(** Sortedness, for a total and transitive comparison. *)
Section Sortedness.
Hypothesis leb_total : forall x y, leb x y = true \/ leb y x = true.
Hypothesis leb_trans :
  forall x y z, leb x y = true -> leb y z = true -> leb x z = true.

Lemma insert_sorted (x : A) (l : list A) :
  StronglySorted (fun a b => leb a b = true) l ->
  StronglySorted (fun a b => leb a b = true) (insert leb x l).
Proof.
  induction 1 as [|y l Hs IH Hall]; simpl.
  - repeat constructor.
  - destruct (leb x y) eqn:Hxy.
    + constructor; [now constructor|].
      constructor; [exact Hxy|].
      eapply Forall_impl; [|exact Hall]. intros z Hz. now apply leb_trans with y.
    + constructor; [exact IH|].
      assert (Hyx : leb y x = true) by (destruct (leb_total x y); [congruence|assumption]).
      apply Forall_forall. intros z Hz.
      apply (Permutation_in _ (insert_perm x l)) in Hz. destruct Hz as [<-|Hz].
      * exact Hyx.
      * rewrite Forall_forall in Hall. now apply Hall.
Qed.

Lemma sort_sorted (l : list A) :
  StronglySorted (fun a b => leb a b = true) (sort leb l).
Proof.
  induction l as [|x l IH]; simpl; [constructor|]. now apply insert_sorted.
Qed.
End Sortedness.

(** Stability through a rank.  When the input is strictly increasing for
    [rank], the output is increasing for the comparison and, among rows
    that compare equal, for the rank. *)
Section Ranked.
Variable rank : A -> nat.
Hypothesis leb_total : forall x y, leb x y = true \/ leb y x = true.
Hypothesis leb_trans :
  forall x y z, leb x y = true -> leb y z = true -> leb x z = true.

Lemma insert_ranked (x : A) (l : list A) :
  Forall (fun y => rank x < rank y) l ->
  StronglySorted (before leb rank) l ->
  StronglySorted (before leb rank) (insert leb x l).
Proof.
  intros Hr Hs. induction Hs as [|y l Hs IH Hall]; simpl.
  - repeat constructor.
  - inversion Hr as [|? ? Hxy Hr']; subst.
    destruct (leb x y) eqn:Hle.
    + constructor; [now constructor|].
      constructor; [split; [exact Hle|intros _; exact Hxy]|].
      rewrite Forall_forall in Hall, Hr' |- *. intros z Hz. split.
      * apply leb_trans with y; [exact Hle|]. now apply Hall.
      * intros _. now apply Hr'.
    + constructor; [now apply IH|].
      apply Forall_forall. intros z Hz.
      apply (Permutation_in _ (insert_perm x l)) in Hz. destruct Hz as [<-|Hz].
      * split; [destruct (leb_total x y); [congruence|assumption]|].
        intros Hc. congruence.
      * rewrite Forall_forall in Hall. now apply Hall.
Qed.

Lemma sort_ranked (l : list A) :
  StronglySorted (fun x y => rank x < rank y) l ->
  StronglySorted (before leb rank) (sort leb l).
Proof.
  induction 1 as [|x l Hs IH Hall]; simpl; [constructor|].
  apply insert_ranked; [|exact IH].
  rewrite Forall_forall in Hall |- *. intros y Hy.
  apply Hall. exact (proj1 (sort_In l y) Hy).
Qed.
End Ranked.
End StableFacts.

(* ================================================================== *)
(** * The flush sentence and the domain of a url *)
(* ================================================================== *)

Section FlushFacts.
Import Summary.

Lemma extract_domain_defined (u : string) : exists d, extract_domain u = Some d.
Proof.
  unfold extract_domain.
  destruct (last_defined (PyStr.split "//" u)) as [rest ->];
    [apply split_from_nonempty|].
  apply first_defined, split_from_nonempty.
Qed.

(** On a string, both indexings of [url.split('//')[-1].split('/')[0]]
    find an element.  When the url has no ["//"], the domain is the part of
    the whole url before its first ["/"]. *)
Theorem extract_domain_total (u : string) :
  (exists d, extract_domain u = Some d) /\
  (PyStr.contains "//" u = false ->
   extract_domain u = Some (PyStr.before_first "/" u)).
Proof.
  split; [apply extract_domain_defined|].
  intros H. unfold extract_domain, PyStr.split.
  rewrite (split_from_absent _ _ H). cbn [PyStr.last].
  apply first_split_char.
Qed.

Lemma extract_domain_total_witness :
  PyStr.contains "//" "intranet/home" = false /\
  extract_domain "intranet/home" = Some "intranet".
Proof.
  split; [reflexivity|].
  exact (proj2 (extract_domain_total "intranet/home") eq_refl).
Defined.

Example extract_domain_scheme :
  extract_domain "http://example.com/a/b.html" = Some "example.com".
Proof. reflexivity. Qed.

(** The component kept is the one after the last ["//"]. *)
Example extract_domain_last_component :
  extract_domain "http://example.com/a//b/c" = Some "b".
Proof. reflexivity. Qed.

(** The flush of an empty buffer does nothing; the flush of a non-empty
    one appends one sentence and empties the buffer. *)
Lemma flush_empty (parts : list string) :
  flush_web_buffer (parts, []) = (parts, []).
Proof. reflexivity. Qed.

Lemma flush_nonempty (parts : list string) (first : Event) (rest : list Event) :
  flush_web_buffer (parts, first :: rest)
  = (parts ++ [web_summary first (first :: rest)], []).
Proof. reflexivity. Qed.

Lemma flush_clears (st : state) : snd (flush_web_buffer st) = [].
Proof. destruct st as [parts [|first rest]]; reflexivity. Qed.

(** C7.  A flush of a non-empty buffer appends one sentence: the first
    and the last buffered timestamps as [HH:MM:SS], the length of the
    buffer, and the listed domains, each followed by its count and the
    suffix [times].  Three buffered web rows at 09:00:00, 09:05:00 and
    09:10:00, two of them on [example.com] and one on [test.org] (wherever
    the latter stands), give exactly the sentence of the specification. *)
Theorem flush_sentence_example :
  (forall parts first rest,
      flush_web_buffer (parts, first :: rest)
      = (parts ++
           [("Between " ++ PyStr.strftime_HMS (timestamp first) ++ " and "
               ++ PyStr.strftime_HMS (timestamp (List.last (first :: rest) first))
               ++ ", visited " ++ PyStr.of_nat (List.length (first :: rest))
               ++ " websites, including "
               ++ PyStr.join ", "
                    (map (fun item =>
                            fst item ++ " (" ++ PyStr.of_nat (snd item) ++ " times)")
                         (top_domains (first :: rest)))
               ++ ".")%string], [])) /\
  (forall (u1 u2 u3 : option string) (r1 r2 r3 p1 p2 p3 : string)
          (parts : list string),
      let web t u r p url :=
        {| timestamp := t; user_id := u; role := r; pc := p;
           activity_type := http url |} in
      let sentence :=
        "Between 09:00:00 and 09:10:00, visited 3 websites, including example.com (2 times), test.org (1 times)." in
      flush_web_buffer
        (parts, [web (PyStr.hms 9 0 0) u1 r1 p1 "http://example.com/index.html";
                 web (PyStr.hms 9 5 0) u2 r2 p2 "http://example.com/news/today";
                 web (PyStr.hms 9 10 0) u3 r3 p3 "http://test.org/"])
      = (parts ++ [sentence], []) /\
      flush_web_buffer
        (parts, [web (PyStr.hms 9 0 0) u1 r1 p1 "http://example.com/index.html";
                 web (PyStr.hms 9 5 0) u2 r2 p2 "http://test.org/";
                 web (PyStr.hms 9 10 0) u3 r3 p3 "http://example.com/news/today"])
      = (parts ++ [sentence], []) /\
      flush_web_buffer
        (parts, [web (PyStr.hms 9 0 0) u1 r1 p1 "http://test.org/";
                 web (PyStr.hms 9 5 0) u2 r2 p2 "http://example.com/index.html";
                 web (PyStr.hms 9 10 0) u3 r3 p3 "http://example.com/news/today"])
      = (parts ++ [sentence], [])).
Proof.
  split.
  - reflexivity.
  - intros. split; [|split]; reflexivity.
Qed.
End FlushFacts.

(* ================================================================== *)
(** * The loop of the summariser *)
(* ================================================================== *)

Section LoopFacts.
Import Summary.

Lemma loop_body_http (parts : list string) (buffer : list Event) (e : Event) :
  is_http (activity_type e) = true ->
  loop_body (parts, buffer) e = (parts, buffer ++ [e]).
Proof.
  unfold loop_body. destruct (activity_type e); simpl; congruence.
Qed.

(** A row that is not a web row: the pending buffer is flushed first, then
    the row's own sentence is appended. *)
Lemma loop_body_discrete (parts : list string) (buffer : list Event) (e : Event) :
  is_http (activity_type e) = false ->
  exists what,
    loop_body (parts, buffer) e
    = (fst (flush_web_buffer (parts, buffer))
         ++ [at_time what (PyStr.strftime_HMS (timestamp e))], []).
Proof.
  intros H. unfold loop_body. rewrite H.
  pose proof (flush_clears (parts, buffer)) as Hc.
  destruct (flush_web_buffer (parts, buffer)) as [parts' buffer'].
  simpl in Hc. subst buffer'.
  destruct (activity_type e); try discriminate; eexists; reflexivity.
Qed.

(** C5.  Leaving the buffering state.  On a row that is not a web row the
    buffered web rows are summarised in one sentence placed before the
    row's own sentence, and the buffer is left empty; at the end of the
    bucket the buffer is flushed once more.  The bucket
    [logon@08:00, http@08:01, http@08:02, logoff@08:10] gives the header
    and exactly three sentences: logon, one web summary, logoff. *)
Theorem buffering_exit_order :
  (forall parts first rest e,
      is_http (activity_type e) = false ->
      exists what,
        loop_body (parts, first :: rest) e
        = (parts ++ [web_summary first (first :: rest);
                     at_time what (PyStr.strftime_HMS (timestamp e))], [])) /\
  (forall first_event rest,
      narrative_parts (first_event :: rest)
      = fst (flush_web_buffer
               (fold_left loop_body (first_event :: rest)
                          ([header first_event (first_event :: rest)], [])))) /\
  (forall (u1 u2 u3 u4 : option string) (r1 r2 r3 r4 p1 p2 p3 p4 url2 url3 : string),
      let e1 := {| timestamp := PyStr.hms 8 0 0; user_id := u1; role := r1;
                   pc := p1; activity_type := logon |} in
      let e2 := {| timestamp := PyStr.hms 8 1 0; user_id := u2; role := r2;
                   pc := p2; activity_type := http url2 |} in
      let e3 := {| timestamp := PyStr.hms 8 2 0; user_id := u3; role := r3;
                   pc := p3; activity_type := http url3 |} in
      let e4 := {| timestamp := PyStr.hms 8 10 0; user_id := u4; role := r4;
                   pc := p4; activity_type := logoff |} in
      narrative_parts [e1; e2; e3; e4]
      = [header e1 [e1; e2; e3; e4];
         "Logged on at 08:00:00.";
         web_summary e2 [e2; e3];
         "Logged off at 08:10:00."] /\
      web_summary e2 [e2; e3]
      = ("Between 08:01:00 and 08:02:00, visited 2 websites, including "
           ++ PyStr.join ", " (map domain_item (top_domains [e2; e3])) ++ ".")%string).
Proof.
  split; [|split].
  - intros parts first rest e H.
    destruct (loop_body_discrete parts (first :: rest) e H) as [what Hw].
    exists what. rewrite Hw, flush_nonempty. cbn [fst].
    rewrite <- app_assoc. reflexivity.
  - reflexivity.
  - intros. split; reflexivity.
Qed.

Lemma buffering_exit_order_witness :
  let e := {| timestamp := PyStr.hms 8 10 0; user_id := Some "u123";
              role := "ITAdmin"; pc := "PC-01"; activity_type := logoff |} in
  let w := {| timestamp := PyStr.hms 8 1 0; user_id := Some "u123";
              role := "ITAdmin"; pc := "PC-01";
              activity_type := http "http://example.com/a" |} in
  is_http (activity_type e) = false /\
  exists what,
    loop_body (["h"], [w]) e
    = (["h"; web_summary w [w];
        at_time what (PyStr.strftime_HMS (timestamp e))], []).
Proof.
  intros e w. split; [reflexivity|].
  exact (proj1 buffering_exit_order ["h"] w [] e eq_refl).
Defined.
End LoopFacts.

(* ================================================================== *)
(** * Accounting for the web rows *)
(* ================================================================== *)

Section BufferAccounting.
Import Summary.

(** The sentences a flush adds, as emissions. *)
Lemma flush_emits (parts : list string) (buffer : list Event) :
  exists ems,
    fst (flush_web_buffer (parts, buffer)) = parts ++ map render ems /\
    List.concat (map run_events ems) = buffer /\
    Forall (fun m => match m with
                     | Discrete _ => True
                     | WebRun first b => exists rest, b = first :: rest
                     end) ems.
Proof.
  destruct buffer as [|first rest].
  - exists []. simpl. rewrite app_nil_r. repeat split. constructor.
  - exists [WebRun first (first :: rest)]. simpl. rewrite app_nil_r.
    repeat split. repeat constructor. now exists rest.
Qed.

(** The invariant of the loop: the rows summarised so far, followed by the
    rows still in the buffer, are the web rows read so far. *)
Lemma loop_emits (events : list Event) :
  forall parts buffer,
  exists ems,
    fst (flush_web_buffer (fold_left loop_body events (parts, buffer)))
    = parts ++ map render ems /\
    List.concat (map run_events ems) = buffer ++ web_rows events /\
    Forall (fun m => match m with
                     | Discrete _ => True
                     | WebRun first b => exists rest, b = first :: rest
                     end) ems.
Proof.
  induction events as [|e events IH]; intros parts buffer.
  - simpl. destruct (flush_emits parts buffer) as (ems & H1 & H2 & H3).
    exists ems. rewrite app_nil_r. auto.
  - cbn [fold_left web_rows filter].
    destruct (is_http (activity_type e)) eqn:He.
    + rewrite (loop_body_http _ _ _ He).
      destruct (IH parts (buffer ++ [e])) as (ems & H1 & H2 & H3).
      exists ems. rewrite H1, H2, <- app_assoc. auto.
    + destruct (loop_body_discrete parts buffer e He) as [what ->].
      destruct (flush_emits parts buffer) as (ems0 & F1 & F2 & F3).
      rewrite F1.
      set (s := at_time what (PyStr.strftime_HMS (timestamp e))).
      destruct (IH ((parts ++ map render ems0) ++ [s]) []) as (ems & H1 & H2 & H3).
      exists (ems0 ++ Discrete s :: ems). split; [|split].
      * rewrite H1, map_app. cbn [map render].
        rewrite <- !app_assoc. reflexivity.
      * rewrite map_app, List.concat_app. cbn [map List.concat run_events].
        rewrite F2, H2. reflexivity.
      * apply Forall_app. split; [exact F3|]. constructor; [exact I|exact H3].
Qed.

Lemma run_total_sum (ems : list emission) :
  list_sum (map run_total ems) = List.length (List.concat (map run_events ems)).
Proof.
  induction ems as [|m ems IH]; simpl; [reflexivity|].
  rewrite length_app, IH. reflexivity.
Qed.
End BufferAccounting.

(* ================================================================== *)
(** * The machine named in the header *)
(* ================================================================== *)

Section StringOrder.
Lemma string_compare_refl (s : string) : String.compare s s = Eq.
Proof. exact (proj2 (String_as_OT.cmp_eq s s) eq_refl). Qed.

Lemma string_leb_refl (s : string) : String.leb s s = true.
Proof. unfold String.leb. now rewrite string_compare_refl. Qed.

Lemma string_leb_lt (a b : string) :
  String.leb a b = true <-> a = b \/ String_as_OT.lt a b.
Proof.
  unfold String.leb. destruct (String.compare a b) eqn:Hc.
  - apply String_as_OT.cmp_eq in Hc. tauto.
  - apply String_as_OT.cmp_lt in Hc. tauto.
  - split; [discriminate|]. intros [->|Hlt].
    + rewrite string_compare_refl in Hc. discriminate.
    + apply String_as_OT.cmp_lt in Hlt. unfold String_as_OT.cmp in Hlt. congruence.
Qed.

Lemma string_leb_trans (a b c : string) :
  String.leb a b = true -> String.leb b c = true -> String.leb a c = true.
Proof.
  rewrite !string_leb_lt. intros [->|H1] [->|H2]; auto.
  right. now apply String_as_OT.lt_trans with b.
Qed.
End StringOrder.

Section HeaderPc.
Import Summary.

Lemma list_max_attained (l : list nat) : l <> [] -> In (list_max l) l.
Proof.
  induction l as [|n l IH]; [congruence|intros _].
  destruct l as [|k l]; [left; simpl; lia|].
  change (list_max (n :: k :: l)) with (Nat.max n (list_max (k :: l))).
  destruct (Nat.max_spec n (list_max (k :: l))) as [[_ ->]|[_ ->]].
  - right. apply IH. discriminate.
  - now left.
Qed.

Lemma count_le_max (l : list string) (x : string) : count x l <= max_count l.
Proof.
  unfold max_count. destruct (in_dec string_dec x l) as [Hin|Hnin].
  - assert (H : Forall (fun k => k <= list_max (map (fun x => count x l) l))
                       (map (fun x => count x l) l))
      by (apply list_max_le; lia).
    rewrite Forall_forall in H. apply H.
    exact (in_map (fun y => count y l) l x Hin).
  - unfold count. rewrite (proj1 (count_occ_not_In string_dec l x) Hnin). lia.
Qed.

Lemma max_attained (l : list string) :
  l <> [] -> exists x, In x l /\ count x l = max_count l.
Proof.
  intros Hl. unfold max_count.
  assert (Hm : map (fun x => count x l) l <> []) by (now destruct l).
  apply list_max_attained, in_map_iff in Hm.
  destruct Hm as (x & Hx & Hin). now exists x.
Qed.

(** The candidates sorted by [mode] are the values of maximal count. *)
Lemma mode_In (l : list string) (x : string) :
  In x (mode l) <-> In x l /\ count x l = max_count l.
Proof.
  unfold mode. rewrite sort_In, nodup_In, filter_In, Nat.eqb_eq. tauto.
Qed.

Lemma mode_sorted (l : list string) :
  StronglySorted (fun a b => String.leb a b = true) (mode l).
Proof. apply sort_sorted; [apply String.leb_total|apply string_leb_trans]. Qed.

(** [iloc[0]] finds an element: the fallback of [header_pc] is not used on
    a non-empty column. *)
Lemma header_pc_defined (l : list string) :
  l <> [] -> PyStr.first (mode l) = Some (header_pc l).
Proof.
  intros Hl. destruct (max_attained l Hl) as (x & Hx).
  apply mode_In in Hx. unfold header_pc.
  destruct l; [congruence|].
  destruct (mode (s :: l)); [contradiction|reflexivity].
Qed.

Lemma header_pc_spec (l : list string) :
  l <> [] ->
  In (header_pc l) l /\
  (forall q, count q l <= count (header_pc l) l) /\
  (forall q, In q l -> count q l = count (header_pc l) l ->
             String.leb (header_pc l) q = true).
Proof.
  intros Hl. pose proof (header_pc_defined l Hl) as Hf.
  pose proof (mode_sorted l) as Hs.
  destruct (mode l) as [|p rest] eqn:Hm; [discriminate|].
  injection Hf as Hp. rewrite <- Hp.
  assert (Hin : In p (mode l)) by (rewrite Hm; now left).
  apply mode_In in Hin. destruct Hin as [Hin Hc].
  split; [exact Hin|]. split.
  - intros q. rewrite Hc. apply count_le_max.
  - intros q Hq Hcq.
    assert (Hqm : In q (mode l)) by (apply mode_In; split; congruence).
    rewrite Hm in Hqm. destruct Hqm as [<-|Hqr]; [apply string_leb_refl|].
    inversion Hs as [|? ? _ Hall]; subst.
    rewrite Forall_forall in Hall. now apply Hall.
Qed.

(** C2, as the code has it.  For a non-empty bucket the header names a
    machine that occurs in the bucket and is used by at least as many rows
    as any other; among the machines with that maximal count it is the
    smallest in string order ([Series.mode] returns its values sorted),
    whatever their order in the bucket. *)
Theorem header_pc_smallest_mode (first_event : Event) (rest : list Event) :
  let events := first_event :: rest in
  let pcs := map pc events in
  exists p,
    List.hd_error (narrative_parts events)
    = Some ("User " ++ show_user (user_id first_event) ++ " (Role: "
              ++ role first_event ++ ") on " ++ p ++ ":")%string /\
    In p pcs /\
    (forall q, count q pcs <= count p pcs) /\
    (forall q, In q pcs -> count q pcs = count p pcs -> String.leb p q = true).
Proof.
  intros events pcs. exists (header_pc pcs). split.
  - destruct (loop_emits events [header first_event events] [])
      as (ems & H1 & _).
    unfold narrative_parts, events at 1. fold events. rewrite H1. reflexivity.
  - apply header_pc_spec. discriminate.
Qed.

(** C2 as stated fails.  Two rows on two machines: both machines have
    count one, [PC-B] is the first in bucket order (and the first to reach
    the maximal count), and the header names [PC-A]. *)
Lemma header_pc_first_occurrence_counterexample :
  let row t p a := {| timestamp := t; user_id := Some "u123"; role := "ITAdmin";
                      pc := p; activity_type := a |} in
  let events := [row (PyStr.hms 8 0 0) "PC-B" logon;
                 row (PyStr.hms 17 0 0) "PC-A" logoff] in
  first_most_frequent (map pc events) = Some "PC-B" /\
  first_reaching_max (map pc events) = Some "PC-B" /\
  create_summary_from_events events
  = "User u123 (Role: ITAdmin) on PC-A: Logged on at 08:00:00. Logged off at 17:00:00.".
Proof. intros row events. split; [|split]; reflexivity. Qed.
End HeaderPc.

(* ================================================================== *)
(** * The counter of domains and its three most common entries *)
(* ================================================================== *)

Section CounterFacts.
Import Summary.

Lemma first_occurrences_In (l : list string) (x : string) :
  In x (first_occurrences l) <-> In x l.
Proof.
  induction l as [|y l IH]; simpl; [tauto|].
  rewrite filter_In, IH, negb_true_iff, String.eqb_neq.
  destruct (string_dec y x); tauto.
Qed.

Lemma first_occurrences_NoDup (l : list string) : NoDup (first_occurrences l).
Proof.
  induction l as [|y l IH]; simpl; constructor.
  - rewrite filter_In, negb_true_iff, String.eqb_neq. tauto.
  - now apply NoDup_filter.
Qed.

Lemma first_occurrences_snoc (l : list string) (k : string) :
  first_occurrences (l ++ [k])
  = first_occurrences l ++ (if existsb (String.eqb k) l then [] else [k]).
Proof.
  induction l as [|y l IH]; simpl; [reflexivity|].
  rewrite IH, filter_app. do 2 f_equal.
  rewrite (String.eqb_sym k y).
  destruct (String.eqb y k) eqn:E; simpl.
  - destruct (existsb (String.eqb k) l); simpl; [reflexivity|now rewrite E].
  - destruct (existsb (String.eqb k) l); simpl; [reflexivity|now rewrite E].
Qed.

Lemma existsb_eqb_In (k : string) (l : list string) :
  existsb (String.eqb k) l = true <-> In k l.
Proof.
  rewrite existsb_exists. split.
  - intros (x & Hx & E). apply String.eqb_eq in E. now subst.
  - intros H. exists k. split; [exact H|apply String.eqb_refl].
Qed.

(** Adding a key to a counter whose keys are distinct. *)
Lemma counter_add_map (k : string) (g : string -> nat) (ks : list string) :
  NoDup ks ->
  counter_add k (map (fun d => (d, g d)) ks)
  = map (fun d => (d, if String.eqb d k then S (g d) else g d)) ks
      ++ (if existsb (String.eqb k) ks then [] else [(k, 1)]).
Proof.
  induction 1 as [|d ks Hd Hnd IH]; simpl; [reflexivity|].
  rewrite (String.eqb_sym k d). destruct (String.eqb d k) eqn:E; simpl.
  - apply String.eqb_eq in E. subst d. rewrite app_nil_r. f_equal.
    apply map_ext_in. intros d' Hd'.
    destruct (String.eqb d' k) eqn:E'; [|reflexivity].
    apply String.eqb_eq in E'. subst d'. contradiction.
  - now rewrite IH.
Qed.

Lemma count_snoc (l : list string) (k d : string) :
  count d (l ++ [k]) = if String.eqb d k then S (count d l) else count d l.
Proof.
  unfold count. rewrite count_occ_app. simpl.
  destruct (string_dec k d) as [->|Hne].
  - rewrite String.eqb_refl. lia.
  - rewrite (proj2 (String.eqb_neq d k)); [lia|congruence].
Qed.

(** The counter built from a list: its distinct values in order of first
    occurrence, each with its number of occurrences. *)
Lemma Counter_spec (l : list string) :
  Counter l = map (fun d => (d, count d l)) (first_occurrences l).
Proof.
  induction l as [|k l IH] using rev_ind; [reflexivity|].
  unfold Counter in *. rewrite fold_left_app. cbn [fold_left].
  rewrite IH, counter_add_map by apply first_occurrences_NoDup.
  rewrite first_occurrences_snoc, map_app. f_equal.
  - apply map_ext. intros d. now rewrite count_snoc.
  - assert (Hex : existsb (String.eqb k) (first_occurrences l)
                  = existsb (String.eqb k) l).
    { apply eq_true_iff_eq. rewrite !existsb_eqb_In. apply first_occurrences_In. }
    rewrite Hex. destruct (existsb (String.eqb k) l) eqn:E; [reflexivity|].
    simpl. rewrite count_snoc, String.eqb_refl. do 3 f_equal.
    symmetry. apply count_occ_not_In. rewrite <- existsb_eqb_In. congruence.
Qed.

Lemma StronglySorted_filter {A} (R : A -> A -> Prop) (p : A -> bool) (l : list A) :
  StronglySorted R l -> StronglySorted R (filter p l).
Proof.
  induction 1 as [|x l Hs IH Hall]; simpl; [constructor|].
  destruct (p x); [|exact IH]. constructor; [exact IH|].
  rewrite Forall_forall in Hall |- *. intros y Hy.
  apply Hall. now apply filter_In in Hy.
Qed.

Lemma StronglySorted_transport {A} (R R' : A -> A -> Prop) (l : list A) :
  (forall a b, In a l -> In b l -> R a b -> R' a b) ->
  StronglySorted R l -> StronglySorted R' l.
Proof.
  intros HR Hs. induction Hs as [|x l Hs IH Hall]; constructor.
  - apply IH. intros a b Ha Hb. apply HR; now right.
  - rewrite Forall_forall in Hall |- *. intros y Hy.
    apply HR; [now left|now right|now apply Hall].
Qed.

Lemma StronglySorted_map {A B} (f : A -> B) (R : B -> B -> Prop) (l : list A) :
  StronglySorted (fun a b => R (f a) (f b)) l -> StronglySorted R (map f l).
Proof.
  induction 1 as [|x l Hs IH Hall]; simpl; constructor; [exact IH|].
  now apply Forall_map.
Qed.

(** The keys of a counter stand by increasing first index. *)
Lemma first_occurrences_sorted (l : list string) :
  StronglySorted (fun a b => first_index a l < first_index b l)
                 (first_occurrences l).
Proof.
  induction l as [|x l IH]; simpl; [constructor|].
  constructor.
  - apply StronglySorted_transport
      with (R := fun a b => first_index a l < first_index b l).
    + intros a b Ha Hb Hab.
      apply filter_In in Ha, Hb. destruct Ha as [_ Ha], Hb as [_ Hb].
      apply negb_true_iff in Ha, Hb. rewrite Ha, Hb. lia.
    + now apply StronglySorted_filter.
  - apply Forall_forall. intros y Hy.
    apply filter_In in Hy. destruct Hy as [_ Hy].
    apply negb_true_iff in Hy. rewrite String.eqb_refl, Hy. lia.
Qed.

Lemma by_count_desc_total (a b : string * nat) :
  by_count_desc a b = true \/ by_count_desc b a = true.
Proof. unfold by_count_desc. rewrite !Nat.leb_le. lia. Qed.

Lemma by_count_desc_trans (a b c : string * nat) :
  by_count_desc a b = true -> by_count_desc b c = true ->
  by_count_desc a c = true.
Proof. unfold by_count_desc. rewrite !Nat.leb_le. lia. Qed.

(** All the entries of the counter, in the order of [most_common]. *)
Lemma sorted_counter_ranked (l : list string) :
  StronglySorted (ranks_before l) (Stable.sort by_count_desc (Counter l)).
Proof.
  apply StronglySorted_transport
    with (R := Stable.before by_count_desc (fun a => first_index (fst a) l)).
  - intros a b _ _ [H1 H2]. unfold by_count_desc, ranks_before in *.
    rewrite Nat.leb_le in H1, H2.
    destruct (Nat.eq_dec (snd a) (snd b)) as [E|E]; [right|left; lia].
    split; [exact E|]. apply H2. lia.
  - apply sort_ranked;
      [apply by_count_desc_total|apply by_count_desc_trans|].
    rewrite Counter_spec. apply StronglySorted_map. cbn [fst].
    apply first_occurrences_sorted.
Qed.

Lemma Counter_In (l : list string) (d : string) (c : nat) :
  In (d, c) (Counter l) <-> In d l /\ c = count d l.
Proof.
  rewrite Counter_spec, in_map_iff. split.
  - intros (x & E & Hx). inversion E; subst.
    split; [|reflexivity]. apply first_occurrences_In. exact Hx.
  - intros [Hd ->]. exists d. split; [reflexivity|].
    apply first_occurrences_In. exact Hd.
Qed.

Lemma Counter_length (l : list string) :
  List.length (Counter l) = List.length (nodup string_dec l).
Proof.
  rewrite Counter_spec, length_map. apply Permutation_length.
  apply NoDup_Permutation;
    [apply first_occurrences_NoDup|apply NoDup_nodup|].
  intros x. now rewrite first_occurrences_In, nodup_In.
Qed.

Lemma StronglySorted_app {A} (R : A -> A -> Prop) (l1 l2 : list A) :
  StronglySorted R (l1 ++ l2) ->
  StronglySorted R l1 /\ forall a b, In a l1 -> In b l2 -> R a b.
Proof.
  induction l1 as [|x l1 IH]; simpl; intros H.
  - split; [constructor|contradiction].
  - apply StronglySorted_inv in H. destruct H as [Hs Hall].
    destruct (IH Hs) as [H1 H2]. apply Forall_app in Hall. destruct Hall as [Ha Hb].
    split; [now constructor|].
    intros a b [<-|Ha'] Hb'; [|now apply H2].
    rewrite Forall_forall in Hb. now apply Hb.
Qed.

(** The three most common entries of a counter. *)
Lemma most_common_spec (n : nat) (l : list string) :
  let top := most_common n (Counter l) in
  List.length top = Nat.min n (List.length (nodup string_dec l)) /\
  (forall d c, In (d, c) top -> In d l /\ c = count d l) /\
  StronglySorted (ranks_before l) top /\
  (forall a d, In a top -> In d l -> ~ In d (map fst top) ->
               ranks_before l a (d, count d l)).
Proof.
  intros top. unfold most_common in top.
  pose proof (sorted_counter_ranked l) as Hs.
  rewrite <- (firstn_skipn n (Stable.sort by_count_desc (Counter l))) in Hs.
  apply StronglySorted_app in Hs. fold top in Hs. destruct Hs as [Hs Hrest].
  assert (Hin : forall a, In a top -> In a (Counter l)).
  { intros a Ha. apply (sort_In by_count_desc).
    rewrite <- (firstn_skipn n (Stable.sort by_count_desc (Counter l))).
    apply in_or_app. now left. }
  split; [|split; [|split]].
  - unfold top. now rewrite length_firstn, sort_length, Counter_length.
  - intros d c H. now apply Counter_In, Hin.
  - exact Hs.
  - intros a d Ha Hd Hnot. apply Hrest; [exact Ha|].
    assert (Hc : In (d, count d l) (Stable.sort by_count_desc (Counter l)))
      by (apply sort_In, Counter_In; auto).
    rewrite <- (firstn_skipn n (Stable.sort by_count_desc (Counter l))) in Hc.
    apply in_app_or in Hc. destruct Hc as [Hc|Hc]; [|exact Hc].
    exfalso. apply Hnot. fold top in Hc.
    apply in_map_iff. now exists (d, count d l).
Qed.

(** C4.  A flush of a non-empty buffer lists, after [including], the
    entries [top]: at most three, fewer only when the buffer has fewer
    distinct domains; each is a domain of the buffer with its number of
    occurrences; they stand by decreasing count and, at equal counts, in
    order of first occurrence in the buffer; and every domain left out
    ranks after each of them in that same order. *)
Theorem flush_lists_top_domains (parts : list string) (first : Event)
    (rest : list Event) :
  let buffer := first :: rest in
  let ds := domains buffer in
  exists top,
    flush_web_buffer (parts, buffer)
    = (parts ++
         [("Between " ++ PyStr.strftime_HMS (timestamp first) ++ " and "
             ++ PyStr.strftime_HMS (timestamp (List.last buffer first))
             ++ ", visited " ++ PyStr.of_nat (List.length buffer)
             ++ " websites, including "
             ++ PyStr.join ", "
                  (map (fun item =>
                          fst item ++ " (" ++ PyStr.of_nat (snd item) ++ " times)")
                       top)
             ++ ".")%string], []) /\
    List.length top = Nat.min 3 (List.length (nodup string_dec ds)) /\
    (forall d c, In (d, c) top -> In d ds /\ c = count d ds) /\
    StronglySorted (ranks_before ds) top /\
    (forall a d, In a top -> In d ds -> ~ In d (map fst top) ->
                 ranks_before ds a (d, count d ds)).
Proof.
  intros buffer ds. exists (top_domains buffer).
  split; [reflexivity|]. apply most_common_spec.
Qed.

Example most_common_ties :
  most_common 3 (Counter ["x.org"; "b.com"; "a.com"; "c.net"; "b.com";
                          "a.com"; "d.io"; "d.io"])
  = [("b.com", 2); ("a.com", 2); ("d.io", 2)].
Proof. reflexivity. Qed.
End CounterFacts.

(* ================================================================== *)
(** * The pipeline: merging, joining and grouping *)
(* ================================================================== *)

Section PipelineFacts.
Import Summary Pipeline.

Lemma user_eqb_eq (u v : option string) : user_eqb u v = true <-> u = v.
Proof.
  destruct u as [a|], v as [b|]; simpl; try (split; congruence).
  rewrite String.eqb_eq. split; congruence.
Qed.

Lemma same_key_class (u : option string) (t : Z) (x y : Event) :
  same_key u t x = true -> same_key u t y = true -> key_leb x y = true.
Proof.
  unfold same_key, key_leb. rewrite !andb_true_iff, !user_eqb_eq, !Z.eqb_eq.
  intros [Hx Tx] [Hy Ty].
  rewrite (proj2 (user_eqb_eq (user_id x) (user_id y))) by congruence.
  apply Z.leb_le. lia.
Qed.

(** C1.  The merged stream holds the rows of the concatenation, and for
    every sort key [(user_id, timestamp)] the rows of that key stand in the
    merged stream in the order they have in the concatenation. *)
Theorem merge_is_stable (m : role_map) (logon_df device_df : list Raw.row)
    (http_df : list RawHttp.row) (u : option string) (t : Z) :
  Permutation (final_df m logon_df device_df http_df)
              (all_events m logon_df device_df http_df) /\
  filter (same_key u t) (final_df m logon_df device_df http_df)
  = filter (same_key u t) (all_events m logon_df device_df http_df).
Proof.
  unfold final_df, sort_values. split.
  - apply sort_perm.
  - apply sort_stable. apply same_key_class.
Qed.

Example merge_keeps_source_order :
  let m := [("ABC0174", Some "Salesman")] in
  let l := [{| Raw.date := PyStr.hms 8 0 0; Raw.user := "DTAA/ABC0174";
               Raw.pc := "PC-1"; Raw.activity := "Logon" |}] in
  let d := [{| Raw.date := PyStr.hms 8 0 0; Raw.user := "DTAA/ABC0174";
               Raw.pc := "PC-1"; Raw.activity := "Connect" |}] in
  let h := [{| RawHttp.id := "{X1}"; RawHttp.date := PyStr.hms 8 0 0;
               RawHttp.user := "DTAA/ABC0174"; RawHttp.pc := "PC-1";
               RawHttp.url := "http://example.com/a"; RawHttp.content := "" |};
            {| RawHttp.id := "{X2}"; RawHttp.date := PyStr.hms 7 0 0;
               RawHttp.user := "DTAA/ABC0174"; RawHttp.pc := "PC-1";
               RawHttp.url := "http://example.com/b"; RawHttp.content := "" |}] in
  map activity_type (final_df m l d h)
  = [http "http://example.com/b"; logon; device_connect;
     http "http://example.com/a"].
Proof. reflexivity. Qed.

(** ** The user field and the left join *)

Lemma extract_user_id_absent (user : string) :
  PyStr.contains "/" user = false -> extract_user_id user = None.
Proof.
  intros H. unfold extract_user_id, PyStr.split.
  now rewrite (split_from_absent _ _ H).
Qed.

Lemma merge_left_keeps {A} (left : list (A * option string)) (m : role_map)
    (lrow : A * option string) :
  In lrow left -> exists r, In (lrow, r) (merge_left left m).
Proof.
  intros H. unfold merge_left.
  destruct (filter (key_matches (snd lrow)) m) as [|entry es] eqn:E.
  - exists None. apply in_flat_map. exists lrow. rewrite E. split; [exact H|now left].
  - exists (snd entry). apply in_flat_map. exists lrow. rewrite E.
    split; [exact H|now left].
Qed.

Lemma merge_left_from {A} (left : list (A * option string)) (m : role_map)
    (lrow : A * option string) (r : option string) :
  In (lrow, r) (merge_left left m) ->
  In lrow left /\
  (r = None \/ exists entry, In entry m /\ key_matches (snd lrow) entry = true
                             /\ r = snd entry).
Proof.
  unfold merge_left. rewrite in_flat_map. intros (l0 & Hl0 & Hin).
  destruct (filter (key_matches (snd l0)) m) as [|entry es] eqn:E.
  - destruct Hin as [Heq|[]]. inversion Heq; subst. auto.
  - apply in_map_iff in Hin. destruct Hin as (en & Heq & Hen).
    inversion Heq; subst. rewrite <- E in Hen. apply filter_In in Hen.
    split; [exact Hl0|]. right. exists en. tauto.
Qed.


Lemma merge_left_unmatched {A} (left : list (A * option string)) (m : role_map)
    (lrow : A * option string) (r : option string) :
  In (lrow, r) (merge_left left m) ->
  (forall u, snd lrow = Some u -> ~ In u (map fst m)) ->
  r = None.
Proof.
  intros H Habs. apply merge_left_from in H.
  destruct H as [_ [H|(entry & Hin & Hk & _)]]; [exact H|].
  exfalso. unfold key_matches in Hk.
  destruct (snd lrow) as [u|] eqn:Eu; [|discriminate].
  apply String.eqb_eq in Hk. apply (Habs u eq_refl).
  rewrite Hk. now apply in_map.
Qed.

(** Every event comes from a joined row of its source. *)
Lemma all_events_origin (m : role_map) (logon_df device_df : list Raw.row)
    (http_df : list RawHttp.row) (e : Event) :
  In e (all_events m logon_df device_df http_df) ->
  exists r,
    role e = fillna_role r /\
    ((exists row, In (row, user_id e, r)
                     (merge_left (with_user_id Raw.user logon_df) m)) \/
     (exists row, In (row, user_id e, r)
                     (merge_left (with_user_id Raw.user device_df) m)) \/
     (exists row, In (row, user_id e, r)
                     (merge_left (with_user_id RawHttp.user http_df) m))).
Proof.
  unfold all_events, logon_events, device_events, http_events.
  rewrite !in_app_iff, !in_map_iff.
  intros [H|[H|H]]; destruct H as ([[row uid] r] & <- & Hin);
    exists r; (split; [reflexivity|]); simpl; eauto.
Qed.

Lemma unmatched_role (m : role_map) (logon_df device_df : list Raw.row)
    (http_df : list RawHttp.row) (e : Event) :
  In e (all_events m logon_df device_df http_df) ->
  (forall u, user_id e = Some u -> ~ In u (map fst m)) ->
  role e = "Unknown".
Proof.
  intros H Habs. apply all_events_origin in H.
  destruct H as (r & -> & [[row H]|[[row H]|[row H]]]);
    apply merge_left_unmatched in H; try exact Habs; now subst r.
Qed.

(** ** The groups *)

Lemma group_eqb_eq (k1 k2 : string * Z) : group_eqb k1 k2 = true <-> k1 = k2.
Proof.
  destruct k1 as [u1 d1], k2 as [u2 d2]. unfold group_eqb. simpl.
  rewrite andb_true_iff, String.eqb_eq, Z.eqb_eq. split.
  - intros [-> ->]. reflexivity.
  - intros H. inversion H. auto.
Qed.

Lemma distinct_In (ks : list (string * Z)) (k : string * Z) :
  In k (distinct ks) <-> In k ks.
Proof.
  induction ks as [|k0 ks IH]; simpl; [tauto|].
  rewrite filter_In, IH, negb_true_iff.
  destruct (group_eqb k0 k) eqn:E.
  - apply group_eqb_eq in E. subst. split; auto.
  - assert (k0 <> k) by (intros ->; rewrite (proj2 (group_eqb_eq k k) eq_refl) in E;
                         discriminate).
    tauto.
Qed.

Lemma in_group_key (k : string * Z) (e : Event) :
  in_group k e = true <-> group_key e = Some k.
Proof.
  unfold in_group. destruct (group_key e) as [k'|].
  - rewrite group_eqb_eq. split; congruence.
  - split; discriminate.
Qed.

Lemma group_key_user (k : string * Z) (e : Event) :
  group_key e = Some k -> user_id e = Some (fst k).
Proof.
  unfold group_key. destruct (user_id e); [|discriminate].
  intros H. inversion H. reflexivity.
Qed.

(** A group is the non-empty list of the rows of its key. *)
Lemma groupby_bucket (df : list Event) (k : string * Z) (bucket : list Event) :
  In (k, bucket) (groupby df) ->
  bucket = filter (in_group k) df /\
  exists first rest, bucket = first :: rest.
Proof.
  unfold groupby, group_keys. rewrite in_map_iff.
  intros (k' & Heq & Hk). inversion Heq; subst k' bucket. split; [reflexivity|].
  apply sort_In, distinct_In, in_flat_map in Hk.
  destruct Hk as (e & He & Hk).
  assert (Hg : group_key e = Some k)
    by (destruct (group_key e); [destruct Hk as [->|[]]; reflexivity|contradiction]).
  assert (Hin : In e (filter (in_group k) df))
    by (apply filter_In; split; [exact He|now apply in_group_key]).
  destruct (filter (in_group k) df) as [|first rest]; [contradiction|eauto].
Qed.

Lemma bucket_rows (df : list Event) (k : string * Z) (bucket : list Event)
    (e : Event) :
  In (k, bucket) (groupby df) -> In e bucket ->
  In e df /\ user_id e = Some (fst k).
Proof.
  intros H He. apply groupby_bucket in H. destruct H as [-> _].
  apply filter_In in He. destruct He as [He Hg].
  split; [exact He|]. now apply group_key_user, in_group_key.
Qed.
End PipelineFacts.

(* ================================================================== *)
(** * Narratives of the pipeline *)
(* ================================================================== *)

Section NarrativeFacts.
Import Summary Pipeline.

Lemma string_app_assoc (a b c : string) : ((a ++ b) ++ c = a ++ (b ++ c))%string.
Proof. induction a as [|x a IH]; simpl; [reflexivity|now rewrite IH]. Qed.

Lemma string_app_nil_r (a : string) : (a ++ "" = a)%string.
Proof. induction a as [|x a IH]; simpl; [reflexivity|now rewrite IH]. Qed.

(** The narrative of a non-empty bucket begins with its header. *)
Lemma summary_begins_with_header (first_event : Event) (rest : list Event) :
  exists tail,
    create_summary_from_events (first_event :: rest)
    = (header first_event (first_event :: rest) ++ tail)%string.
Proof.
  destruct (loop_emits (first_event :: rest)
              [header first_event (first_event :: rest)] [])
    as (ems & H & _).
  unfold create_summary_from_events, narrative_parts. rewrite H.
  cbn [app PyStr.join concat].
  destruct (map render ems) as [|s l].
  - exists "". now rewrite string_app_nil_r.
  - eexists. reflexivity.
Qed.

Lemma generate_narratives_from (m : role_map) (logon_df device_df : list Raw.row)
    (http_df : list RawHttp.row) (rec : NarrativeRecord) :
  In rec (generate_narratives m logon_df device_df http_df) ->
  exists bucket,
    In ((user rec, date rec), bucket)
       (groupby (final_df m logon_df device_df http_df)) /\
    narrative rec = create_summary_from_events bucket.
Proof.
  unfold generate_narratives. rewrite in_map_iff.
  intros ([[u d] bucket] & <- & H). exists bucket. simpl. auto.
Qed.

Lemma final_df_In (m : role_map) (logon_df device_df : list Raw.row)
    (http_df : list RawHttp.row) (e : Event) :
  In e (final_df m logon_df device_df http_df)
  <-> In e (all_events m logon_df device_df http_df).
Proof. apply sort_In. Qed.

Lemma joined_unmatched {A} (user : A -> string) (df : list A) (m : role_map)
    (row : A) :
  In row df ->
  (forall u, extract_user_id (user row) = Some u -> ~ In u (map fst m)) ->
  In (row, extract_user_id (user row), None) (merge_left (with_user_id user df) m).
Proof.
  intros Hrow Habs.
  assert (Hin : In (row, extract_user_id (user row)) (with_user_id user df))
    by (unfold with_user_id; apply in_map_iff; now exists row).
  destruct (merge_left_keeps _ m _ Hin) as [r Hr].
  assert (r = None) by (eapply merge_left_unmatched; [exact Hr|exact Habs]).
  now subst r.
Qed.

(** C3, as the code has it.  A [user] field without ["/"] makes no call
    fail: the extracted [user_id] is a missing value; the row goes through
    normalisation and the merge with that missing [user_id] and the role
    [Unknown]; the grouping then leaves it out, since every row of every
    group, hence of every narrative, has the [user_id] of the group. *)
Theorem malformed_user_is_dropped (m : role_map)
    (logon_df device_df : list Raw.row) (http_df : list RawHttp.row) :
  let df := final_df m logon_df device_df http_df in
  (forall user, PyStr.contains "/" user = false -> extract_user_id user = None) /\
  (forall row, In row logon_df -> PyStr.contains "/" (Raw.user row) = false ->
     In {| timestamp := Raw.date row; user_id := None; role := "Unknown";
           pc := Raw.pc row;
           activity_type := logon_activity (Raw.activity row) |} df) /\
  (forall row, In row device_df -> PyStr.contains "/" (Raw.user row) = false ->
     In {| timestamp := Raw.date row; user_id := None; role := "Unknown";
           pc := Raw.pc row;
           activity_type := device_activity (Raw.activity row) |} df) /\
  (forall row, In row http_df -> PyStr.contains "/" (RawHttp.user row) = false ->
     In {| timestamp := RawHttp.date row; user_id := None; role := "Unknown";
           pc := RawHttp.pc row;
           activity_type := http (RawHttp.url row) |} df) /\
  (forall rec, In rec (generate_narratives m logon_df device_df http_df) ->
     exists bucket,
       In ((user rec, date rec), bucket) (groupby df) /\
       narrative rec = create_summary_from_events bucket /\
       forall e, In e bucket -> In e df /\ user_id e = Some (user rec)).
Proof.
  intros df. split; [exact extract_user_id_absent|].
  assert (Hnone : forall A (user : A -> string) (df0 : list A) row,
             In row df0 -> PyStr.contains "/" (user row) = false ->
             In (row, None, None) (merge_left (with_user_id user df0) m)).
  { intros A user df0 row Hrow Hbad.
    pose proof (joined_unmatched user df0 m row Hrow) as H.
    rewrite (extract_user_id_absent _ Hbad) in H. apply H. discriminate. }
  repeat split.
  - intros row Hrow Hbad. apply final_df_In. unfold all_events.
    apply in_or_app. left.
    exact (in_map logon_event _ _ (Hnone _ Raw.user logon_df row Hrow Hbad)).
  - intros row Hrow Hbad. apply final_df_In. unfold all_events.
    apply in_or_app. right. apply in_or_app. left.
    exact (in_map device_event _ _ (Hnone _ Raw.user device_df row Hrow Hbad)).
  - intros row Hrow Hbad. apply final_df_In. unfold all_events.
    apply in_or_app. right. apply in_or_app. right.
    exact (in_map http_event _ _ (Hnone _ RawHttp.user http_df row Hrow Hbad)).
  - intros rec Hrec. apply generate_narratives_from in Hrec.
    destruct Hrec as (bucket & Hb & Hn). exists bucket.
    split; [exact Hb|]. split; [exact Hn|].
    intros e He. exact (bucket_rows _ _ _ e Hb He).
Qed.

Lemma malformed_user_is_dropped_witness :
  let bad := {| Raw.date := PyStr.hms 8 0 0; Raw.user := "ABC0174";
                Raw.pc := "PC-1"; Raw.activity := "Logon" |} in
  let good := {| Raw.date := PyStr.hms 9 0 0; Raw.user := "DTAA/XYZ0001";
                 Raw.pc := "PC-2"; Raw.activity := "Logon" |} in
  In bad [bad; good] /\
  PyStr.contains "/" (Raw.user bad) = false /\
  extract_user_id (Raw.user bad) = None /\
  In {| timestamp := PyStr.hms 8 0 0; user_id := None; role := "Unknown";
        pc := "PC-1"; activity_type := logon |}
     (final_df [] [bad; good] [] []).
Proof.
  intros bad good.
  assert (Hin : In bad [bad; good]) by now left.
  assert (Hbad : PyStr.contains "/" (Raw.user bad) = false) by reflexivity.
  split; [exact Hin|]. split; [exact Hbad|]. split.
  - exact (proj1 (malformed_user_is_dropped [] [bad; good] [] []) (Raw.user bad) Hbad).
  - exact (proj1 (proj2 (malformed_user_is_dropped [] [bad; good] [] [])) bad Hin Hbad).
Defined.

(** C3 as stated fails.  The first row has no separator in its [user]
    field: the call returns normally, the row is in no narrative, and the
    second row is summarised as if the first had not been there. *)
Lemma malformed_user_counterexample :
  let bad := {| Raw.date := PyStr.hms 8 0 0; Raw.user := "ABC0174";
                Raw.pc := "PC-1"; Raw.activity := "Logon" |} in
  let good := {| Raw.date := PyStr.hms 9 0 0; Raw.user := "DTAA/XYZ0001";
                 Raw.pc := "PC-2"; Raw.activity := "Logon" |} in
  PyStr.contains "/" (Raw.user bad) = false /\
  extract_user_id (Raw.user bad) = None /\
  generate_narratives [] [bad; good] [] []
  = [{| date := 0; user := "XYZ0001";
        narrative := "User XYZ0001 (Role: Unknown) on PC-2: Logged on at 09:00:00." |}].
Proof. intros bad good. split; [|split]; reflexivity. Qed.


End NarrativeFacts.

(* ================================================================== *)
(** * The theorems on sample buckets *)
(* ================================================================== *)

Section Samples.
Import Summary.

Lemma header_pc_smallest_mode_witness :
  let row t p a := {| timestamp := t; user_id := Some "u123"; role := "ITAdmin";
                      pc := p; activity_type := a |} in
  let first_event := row (PyStr.hms 8 0 0) "PC-B" logon in
  let rest := [row (PyStr.hms 17 0 0) "PC-A" logoff] in
  exists p,
    List.hd_error (narrative_parts (first_event :: rest))
    = Some ("User u123 (Role: ITAdmin) on " ++ p ++ ":")%string /\
    In p ["PC-B"; "PC-A"] /\
    (forall q, count q ["PC-B"; "PC-A"] <= count p ["PC-B"; "PC-A"]) /\
    (forall q, In q ["PC-B"; "PC-A"] ->
               count q ["PC-B"; "PC-A"] = count p ["PC-B"; "PC-A"] ->
               String.leb p q = true).
Proof.
  intros row first_event rest.
  exact (header_pc_smallest_mode first_event rest).
Defined.

Lemma flush_lists_top_domains_witness :
  let web t url := {| timestamp := t; user_id := Some "u123"; role := "ITAdmin";
                      pc := "PC-01"; activity_type := http url |} in
  let first := web (PyStr.hms 9 0 0) "http://b.com/x" in
  let rest := [web (PyStr.hms 9 1 0) "http://a.com/"; web (PyStr.hms 9 2 0) "http://b.com/y";
               web (PyStr.hms 9 3 0) "http://a.com/z"; web (PyStr.hms 9 4 0) "c.net"] in
  let ds := ["b.com"; "a.com"; "b.com"; "a.com"; "c.net"] in
  exists top,
    List.length top = 3 /\
    StronglySorted (ranks_before ds) top /\
    (forall d c, In (d, c) top -> In d ds /\ c = count d ds).
Proof.
  intros web first rest ds.
  destruct (flush_lists_top_domains [] first rest) as (top & _ & Hl & Hc & Hs & _).
  exists top. split; [exact Hl|]. split; [exact Hs|exact Hc].
Defined.
End Samples.


(* ================================================================== *)
(** * The role directory *)
(* ================================================================== *)

Section DirectoryFacts.
Import Summary Pipeline Directory.

Lemma same_user_exists (r : ldap_row) (rows : list ldap_row) :
  existsb (same_user r) rows = true <-> In (fst r) (map fst rows).
Proof.
  rewrite existsb_exists, in_map_iff. unfold same_user. split.
  - intros (r' & Hin & E). apply String.eqb_eq in E. now exists r'.
  - intros (r' & E & Hin). exists r'. split; [exact Hin|].
    apply String.eqb_eq. congruence.
Qed.

Lemma drop_duplicates_keys (rows : list ldap_row) (u : string) :
  In u (map fst (drop_duplicates_last rows)) <-> In u (map fst rows).
Proof.
  induction rows as [|r rest IH]; simpl; [tauto|].
  destruct (existsb (same_user r) rest) eqn:E; simpl; rewrite IH; [|tauto].
  apply same_user_exists in E. split; [tauto|]. intros [<-|H]; assumption.
Qed.

Lemma drop_duplicates_NoDup (rows : list ldap_row) :
  NoDup (map fst (drop_duplicates_last rows)).
Proof.
  induction rows as [|r rest IH]; simpl; [constructor|].
  destruct (existsb (same_user r) rest) eqn:E; [exact IH|].
  simpl. constructor; [|exact IH].
  rewrite drop_duplicates_keys, <- same_user_exists. congruence.
Qed.

Lemma drop_duplicates_In (rows : list ldap_row) (u : string) (r : option string) :
  In (u, r) (drop_duplicates_last rows)
  <-> exists l1 l2, rows = l1 ++ (u, r) :: l2 /\ ~ In u (map fst l2).
Proof.
  induction rows as [|r0 rest IH]; simpl.
  - split; [contradiction|]. intros (l1 & l2 & H & _). now destruct l1.
  - destruct (existsb (same_user r0) rest) eqn:E.
    + rewrite IH. split.
      * intros (l1 & l2 & -> & Hn). now exists (r0 :: l1), l2.
      * intros (l1 & l2 & H & Hn). destruct l1 as [|x l1]; simpl in H.
        -- inversion H; subst. apply same_user_exists in E. contradiction.
        -- inversion H; subst. now exists l1, l2.
    + simpl. rewrite IH. split.
      * intros [->|(l1 & l2 & -> & Hn)].
        -- exists [], rest. split; [reflexivity|].
           rewrite <- (same_user_exists (u, r)). congruence.
        -- now exists (r0 :: l1), l2.
      * intros (l1 & l2 & H & Hn). destruct l1 as [|x l1]; simpl in H.
        -- inversion H. now left.
        -- inversion H; subst. right. now exists l1, l2.
Qed.

(** X1.  The role map has one row per user: its [user_id]s are distinct,
    and they are exactly the [user_id]s that occur in the files. *)
Theorem role_map_keys (ldap_files : list (list ldap_row)) :
  NoDup (map fst (process_ldap_data ldap_files)) /\
  forall u, In u (map fst (process_ldap_data ldap_files))
            <-> In u (map fst (List.concat ldap_files)).
Proof.
  destruct ldap_files as [|f fs].
  - split; [constructor|reflexivity].
  - split; [apply drop_duplicates_NoDup|apply drop_duplicates_keys].
Qed.

(** X2.  Last occurrence wins: a row [(u, r)] is in the role map exactly
    when it is the last row for [u] in the files read one after the other. *)
Theorem role_map_last_wins (ldap_files : list (list ldap_row))
    (u : string) (r : option string) :
  In (u, r) (process_ldap_data ldap_files)
  <-> exists l1 l2, List.concat ldap_files = l1 ++ (u, r) :: l2
                    /\ ~ In u (map fst l2).
Proof.
  destruct ldap_files as [|f fs].
  - simpl. split; [contradiction|]. intros (l1 & l2 & H & _). now destruct l1.
  - apply drop_duplicates_In.
Qed.

Example role_map_sample :
  process_ldap_data [[("ABC0174", Some "Salesman"); ("XYZ0001", Some "Engineer")];
                     [("ABC0174", Some "Manager")]]
  = [("XYZ0001", Some "Engineer"); ("ABC0174", Some "Manager")].
Proof. reflexivity. Qed.
End DirectoryFacts.

(* ================================================================== *)
(** * Joining against a role map with one row per user *)
(* ================================================================== *)

Section UniqueJoin.
Import Summary Pipeline Directory.

Lemma key_matches_fst (k : option string) (entry : string * option string) :
  key_matches k entry = true <-> k = Some (fst entry).
Proof.
  unfold key_matches. destruct k as [u|]; [|split; discriminate].
  rewrite String.eqb_eq. split; congruence.
Qed.

(** With distinct keys at most one row of the map matches. *)
Lemma filter_unique_key (m : role_map) (k : option string) :
  NoDup (map fst m) ->
  filter (key_matches k) m
  = match find (key_matches k) m with Some entry => [entry] | None => [] end.
Proof.
  induction m as [|en m IH]; simpl; [reflexivity|].
  intros Hnd. inversion Hnd as [|? ? Hnotin Hnd']; subst.
  destruct (key_matches k en) eqn:E; [|now apply IH].
  f_equal. apply key_matches_fst in E.
  assert (Hnone : forall en', In en' m -> key_matches k en' = false).
  { intros en' Hin. destruct (key_matches k en') eqn:E'; [|reflexivity].
    apply key_matches_fst in E'. exfalso. apply Hnotin.
    replace (fst en) with (fst en') by congruence. now apply in_map. }
  clear -Hnone. induction m as [|x m IH]; simpl; [reflexivity|].
  rewrite (Hnone x) by now left. apply IH. intros en' Hin. apply Hnone. now right.
Qed.

Lemma find_unique_key (m : role_map) (u : string) (r : option string) :
  NoDup (map fst m) -> In (u, r) m -> find (key_matches (Some u)) m = Some (u, r).
Proof.
  induction m as [|en m IH]; cbn [find In map]; [contradiction|].
  intros Hnd Hin. inversion Hnd as [|? ? Hnotin Hnd']; subst.
  destruct Hin as [->|Hin].
  - cbn. now rewrite String.eqb_refl.
  - destruct (key_matches (Some u) en) eqn:E; [|now apply IH].
    apply key_matches_fst in E. exfalso. apply Hnotin.
    inversion E as [E']. rewrite <- E'. exact (in_map fst m (u, r) Hin).
Qed.

(** The role a row gets from the join and [fillna]. *)
Lemma merge_left_unique {A} (left : list (A * option string)) (m : role_map) :
  NoDup (map fst m) ->
  merge_left left m
  = map (fun lrow =>
           (lrow, match find (key_matches (snd lrow)) m with
                  | Some entry => snd entry
                  | None => None
                  end)) left.
Proof.
  intros Hnd. unfold merge_left.
  set (f := fun lrow : A * option string => match filter _ m with [] => _ | _ => _ end).
  set (g := fun lrow : A * option string => (lrow, _)).
  assert (Hfg : forall lrow, f lrow = [g lrow]).
  { intros lrow. unfold f, g. rewrite (filter_unique_key m (snd lrow) Hnd).
    now destruct (find (key_matches (snd lrow)) m). }
  induction left as [|lrow left IH]; [reflexivity|].
  change (f lrow ++ flat_map f left = g lrow :: map g left).
  now rewrite IH, Hfg.
Qed.

(** X3.  When the role map has one row per user, each source gives exactly
    one event per raw row, in row order, and the role of the event is the
    role of the user's row in the map, [Unknown] when the user has no row or
    the row has no role. *)
Theorem one_event_per_row (m : role_map) (logon_df device_df : list Raw.row)
    (http_df : list RawHttp.row) :
  NoDup (map fst m) ->
  let role_of uid :=
    match find (key_matches uid) m with
    | Some (_, Some r) => r
    | _ => "Unknown"
    end in
  logon_events m logon_df
  = map (fun row =>
           {| timestamp := Raw.date row;
              user_id := extract_user_id (Raw.user row);
              role := role_of (extract_user_id (Raw.user row));
              pc := Raw.pc row;
              activity_type := if String.eqb (Raw.activity row) "Logon"
                               then logon else logoff |}) logon_df /\
  device_events m device_df
  = map (fun row =>
           {| timestamp := Raw.date row;
              user_id := extract_user_id (Raw.user row);
              role := role_of (extract_user_id (Raw.user row));
              pc := Raw.pc row;
              activity_type := if String.eqb (Raw.activity row) "Connect"
                               then device_connect else device_disconnect |})
        device_df /\
  http_events m http_df
  = map (fun row =>
           {| timestamp := RawHttp.date row;
              user_id := extract_user_id (RawHttp.user row);
              role := role_of (extract_user_id (RawHttp.user row));
              pc := RawHttp.pc row;
              activity_type := http (RawHttp.url row) |}) http_df.
Proof.
  intros Hnd role_of.
  unfold logon_events, device_events, http_events, with_user_id.
  rewrite !(merge_left_unique _ m Hnd), !map_map.
  repeat split; apply map_ext; intros row; simpl; unfold role_of;
    destruct (find (key_matches _) m) as [[u [r|]]|]; reflexivity.
Qed.

Lemma one_event_per_row_witness :
  let m := [("ABC0174", Some "Salesman")] in
  let l := [{| Raw.date := PyStr.hms 8 0 0; Raw.user := "DTAA/ABC0174";
               Raw.pc := "PC-1"; Raw.activity := "Logon" |}] in
  NoDup (map fst m) /\
  logon_events m l
  = [{| timestamp := PyStr.hms 8 0 0; user_id := Some "ABC0174";
        role := "Salesman"; pc := "PC-1"; activity_type := logon |}].
Proof.
  intros m l.
  assert (Hnd : NoDup (map fst m)) by (repeat constructor; simpl; tauto).
  split; [exact Hnd|].
  exact (proj1 (one_event_per_row m l [] [] Hnd)).
Defined.

(** X4.  With the role map built by [process_ldap_data] the join neither
    drops nor repeats a row: the merged stream has as many events as the
    three sources have rows.  The role of an event is then the role of the
    last directory row of its user. *)
Theorem directory_join_keeps_count (ldap_files : list (list ldap_row))
    (logon_df device_df : list Raw.row) (http_df : list RawHttp.row) :
  let m := process_ldap_data ldap_files in
  List.length (final_df m logon_df device_df http_df)
  = List.length logon_df + List.length device_df + List.length http_df /\
  (forall e u r l1 l2,
      In e (final_df m logon_df device_df http_df) ->
      user_id e = Some u ->
      List.concat ldap_files = l1 ++ (u, Some r) :: l2 ->
      ~ In u (map fst l2) ->
      role e = r).
Proof.
  intros m.
  assert (Hnd : NoDup (map fst m)).
  { unfold m. destruct ldap_files; [constructor|apply drop_duplicates_NoDup]. }
  split.
  - unfold final_df, sort_values, all_events,
      logon_events, device_events, http_events, with_user_id.
    rewrite sort_length, !length_app, !length_map.
    rewrite !(merge_left_unique _ m Hnd), !length_map. lia.
  - intros e u r l1 l2 He Hu Hcat Hlast.
    assert (Hin : In (u, Some r) m).
    { unfold m. destruct ldap_files as [|f fs].
      - simpl in Hcat. now destruct l1.
      - apply drop_duplicates_In. now exists l1, l2. }
    pose proof (find_unique_key m u (Some r) Hnd Hin) as Hf.
    apply sort_In in He. unfold all_events in He.
    unfold logon_events, device_events, http_events, with_user_id in He.
    rewrite !(merge_left_unique _ m Hnd), !map_map in He.
    rewrite !in_app_iff, !in_map_iff in He.
    destruct He as [(row & <- & _)|[(row & <- & _)|(row & <- & _)]];
      simpl in Hu |- *; rewrite Hu, Hf; reflexivity.
Qed.

Lemma directory_join_keeps_count_witness :
  let files := [[("ABC0174", Some "Salesman")]; [("ABC0174", Some "Manager")]] in
  let l := [{| Raw.date := PyStr.hms 8 0 0; Raw.user := "DTAA/ABC0174";
               Raw.pc := "PC-1"; Raw.activity := "Logon" |}] in
  let e := {| timestamp := PyStr.hms 8 0 0; user_id := Some "ABC0174";
              role := "Manager"; pc := "PC-1"; activity_type := logon |} in
  In e (final_df (process_ldap_data files) l [] []) /\ role e = "Manager".
Proof.
  intros files l e.
  assert (Hin : In e (final_df (process_ldap_data files) l [] []))
    by (left; reflexivity).
  split; [exact Hin|].
  refine (proj2 (directory_join_keeps_count files l [] []) e "ABC0174" "Manager"
                [("ABC0174", Some "Salesman")] [] Hin eq_refl eq_refl _).
  simpl. tauto.
Defined.
End UniqueJoin.

(* ================================================================== *)
(** * Splitting, identifiers, domains and times *)
(* ================================================================== *)

Section FieldFacts.
Import PyStr Summary Pipeline.

Lemma join_cons (sep x : string) (l : list string) :
  l <> [] -> join sep (x :: l) = (x ++ sep ++ join sep l)%string.
Proof. destruct l; [congruence|reflexivity]. Qed.

Lemma join_cons_head (sep : string) (c : ascii) (l : list string) :
  l <> [] -> join sep (cons_head c l) = String c (join sep l).
Proof.
  destruct l as [|h t]; [congruence|intros _].
  destruct t; reflexivity.
Qed.

(** The characters still to be passed over, then the components joined
    again, give back the text. *)
Lemma join_split_from (sep : string) :
  sep <> "" ->
  forall s b, prefix b s = true ->
              (b ++ join sep (split_from sep s (String.length b)))%string = s.
Proof.
  intros Hsep. induction s as [|c s IH]; intros b Hb.
  - destruct b; [reflexivity|discriminate].
  - destruct b as [|c' b].
    + cbn [String.length split_from append].
      destruct (prefix sep (String c s)) eqn:Hp.
      * destruct sep as [|c0 sep']; [congruence|].
        simpl in Hp. destruct (ascii_dec c0 c) as [->|]; [|discriminate].
        rewrite join_cons by apply split_from_nonempty.
        cbn [String.length Nat.sub append]. rewrite Nat.sub_0_r.
        f_equal. now apply IH.
      * rewrite join_cons_head by apply split_from_nonempty.
        f_equal. apply (IH ""). now destruct s.
    + simpl in Hb. destruct (ascii_dec c' c) as [->|]; [|discriminate].
      cbn [String.length split_from append]. f_equal. now apply IH.
Qed.

(** X5.  Splitting and joining are inverse: for a non-empty separator, the
    components of [s.split(sep)] joined with [sep] are [s] again. *)
Theorem join_split (sep s : string) :
  sep <> "" -> join sep (split sep s) = s.
Proof.
  intros Hsep. apply (join_split_from sep Hsep s "").
  now destruct s.
Qed.

Lemma join_split_witness : join "//" (split "//" "http://a.com//b") = "http://a.com//b".
Proof. apply join_split. discriminate. Defined.

Lemma contains_char_cons (c a : ascii) (s : string) :
  contains (String c "") (String a s) = Ascii.eqb a c || contains (String c "") s.
Proof. cbn [contains]. now rewrite prefix_char. Qed.

(** A text whose first part has no separator character splits after it. *)
Lemma split_char_app (c : ascii) (d rest : string) :
  contains (String c "") d = false ->
  split (String c "") (d ++ String c rest) = d :: split (String c "") rest.
Proof.
  unfold split. induction d as [|a d IH]; intros H.
  - cbn [append split_from]. rewrite prefix_char, Ascii.eqb_refl. reflexivity.
  - rewrite contains_char_cons in H. apply orb_false_iff in H. destruct H as [Ha Hd].
    cbn [append split_from]. rewrite prefix_char, Ha, (IH Hd). reflexivity.
Qed.

(** X6.  The identifier of a well-formed user field: when the part before
    the first ["/"] has none, [user_id] is what stands between the first
    ["/"] and the next one, that is, the user of ["<domain>/<user>"]. *)
Theorem extract_user_id_of_field (domain rest : string) :
  contains "/" domain = false ->
  extract_user_id (domain ++ "/" ++ rest) = Some (before_first "/" rest) /\
  (contains "/" rest = false ->
   extract_user_id (domain ++ "/" ++ rest) = Some rest).
Proof.
  intros Hd.
  assert (H : extract_user_id (domain ++ "/" ++ rest) = Some (before_first "/" rest)).
  { unfold extract_user_id. change ("/" ++ rest)%string with (String "/" rest).
    rewrite (split_char_app "/" domain rest Hd). cbn [nth_error].
    exact (first_split_char "/" rest). }
  split; [exact H|]. intros Hr. rewrite H. f_equal.
  clear -Hr. induction rest as [|a rest IH]; [reflexivity|].
  rewrite contains_char_cons in Hr. apply orb_false_iff in Hr. destruct Hr as [Ha Hr].
  cbn [before_first]. rewrite Ha. f_equal. now apply IH.
Qed.

Lemma extract_user_id_of_field_witness :
  contains "/" "DTAA" = false /\ contains "/" "ABC0174" = false /\
  extract_user_id "DTAA/ABC0174" = Some "ABC0174".
Proof.
  split; [reflexivity|]. split; [reflexivity|].
  exact (proj2 (extract_user_id_of_field "DTAA" "ABC0174" eq_refl) eq_refl).
Defined.

Lemma before_first_clean (c : ascii) (s : string) :
  contains (String c "") (before_first c s) = false.
Proof.
  induction s as [|a s IH]; [reflexivity|].
  cbn [before_first]. destruct (Ascii.eqb a c) eqn:E; [reflexivity|].
  now rewrite contains_char_cons, E, IH.
Qed.

(** X7.  The domain taken from a url never contains a ["/"]. *)
Theorem domain_has_no_slash (u d : string) :
  extract_domain u = Some d -> contains "/" d = false.
Proof.
  unfold extract_domain. destruct (PyStr.last (split "//" u)) as [rest|];
    [|discriminate].
  rewrite (first_split_char "/" rest). intros H. inversion H.
  apply before_first_clean.
Qed.

Lemma domain_has_no_slash_witness :
  extract_domain "http://example.com/a/b" = Some "example.com" /\
  contains "/" "example.com" = false.
Proof.
  split; [reflexivity|].
  exact (domain_has_no_slash "http://example.com/a/b" "example.com" eq_refl).
Defined.

Lemma last_cons {A} (x : A) (l : list A) : l <> [] -> PyStr.last (x :: l) = PyStr.last l.
Proof. destruct l; [congruence|reflexivity]. Qed.

Lemma split_scheme_app (scheme rest : string) :
  contains "/" scheme = false ->
  split "//" (scheme ++ "//" ++ rest) = scheme :: split "//" rest.
Proof.
  unfold split. induction scheme as [|a scheme IH]; intros H.
  - cbn [append split_from].
    assert (Hp : prefix "//" (String "/" (String "/" rest)) = true).
    { cbn [prefix]. destruct (ascii_dec "/" "/"); [|congruence]. now destruct rest. }
    rewrite Hp. reflexivity.
  - rewrite contains_char_cons in H. apply orb_false_iff in H. destruct H as [Ha Hs].
    specialize (IH Hs). cbn [append split_from] in IH |- *.
    match goal with
    | |- context [prefix "//" ?x] => assert (Hp : prefix "//" x = false)
    end.
    { cbn [prefix]. destruct (ascii_dec "/" a) as [<-|]; [discriminate Ha|reflexivity]. }
    rewrite Hp, IH. reflexivity.
Qed.

(** X8.  A scheme is dropped: when [scheme] has no ["/"], the domain of
    [scheme ++ "//" ++ rest] is the domain of [rest]; and when [rest] has no
    ["//"], it is the part of [rest] before its first ["/"]. *)
Theorem domain_after_scheme (scheme rest : string) :
  contains "/" scheme = false ->
  extract_domain (scheme ++ "//" ++ rest) = extract_domain rest /\
  (contains "//" rest = false ->
   extract_domain (scheme ++ "//" ++ rest) = Some (before_first "/" rest)).
Proof.
  intros Hs.
  assert (H : extract_domain (scheme ++ "//" ++ rest) = extract_domain rest).
  { unfold extract_domain. rewrite (split_scheme_app scheme rest Hs).
    rewrite last_cons by apply split_from_nonempty. reflexivity. }
  split; [exact H|]. intros Hr. rewrite H. unfold extract_domain, split.
  rewrite (split_from_absent _ _ Hr). cbn [PyStr.last].
  apply first_split_char.
Qed.

Lemma domain_after_scheme_witness :
  contains "/" "https:" = false /\ contains "//" "example.com/a/b" = false /\
  extract_domain "https://example.com/a/b" = Some "example.com".
Proof.
  split; [reflexivity|]. split; [reflexivity|].
  exact (proj2 (domain_after_scheme "https:" "example.com/a/b" eq_refl) eq_refl).
Defined.
End FieldFacts.

(* ================================================================== *)
(** * Times of day and calendar days *)
(* ================================================================== *)

Section TimeFacts.
Import PyStr Summary Pipeline.

Lemma seconds_split (h mi s : nat) :
  mi < 60 -> s < 60 ->
  let n := (h * 60 + mi) * 60 + s in
  n / 3600 = h /\ (n / 60) mod 60 = mi /\ n mod 60 = s.
Proof.
  intros Hm Hs n.
  assert (H60 : n / 60 = h * 60 + mi)
    by (symmetry; apply (Nat.div_unique n 60 (h * 60 + mi) s); [exact Hs|unfold n; lia]).
  split; [|split].
  - symmetry. apply (Nat.div_unique n 3600 h (mi * 60 + s)); [lia|unfold n; lia].
  - rewrite H60. symmetry. apply (Nat.mod_unique _ 60 h mi); [exact Hm|lia].
  - symmetry. apply (Nat.mod_unique n 60 (h * 60 + mi) s); [exact Hs|unfold n; lia].
Qed.

(** X9.  A timestamp made of a day number, a time of day and a fraction of
    a second: the narrative prints the time of day alone, as three
    two-digit fields, and the grouping sees the day number alone. *)
Theorem timestamp_parts (day : Z) (h mi s : nat) (ns : Z) :
  h < 24 -> mi < 60 -> s < 60 -> (0 <= ns < ns_per_second)%Z ->
  let ts := (day * ns_per_day
             + hms (Z.of_nat h) (Z.of_nat mi) (Z.of_nat s) + ns)%Z in
  strftime_HMS ts
  = (two_digits h ++ ":" ++ two_digits mi ++ ":" ++ two_digits s)%string /\
  date_only ts = day.
Proof.
  intros Hh Hm Hs Hns ts.
  set (n := (h * 60 + mi) * 60 + s).
  assert (Hn : (Z.of_nat n < 86400)%Z) by (unfold n; lia).
  assert (Hts : ts = ((day * 86400 + Z.of_nat n) * ns_per_second + ns)%Z)
    by (unfold ts, hms, ns_per_day, n; lia).
  assert (Hdiv : (ts / ns_per_second = day * 86400 + Z.of_nat n)%Z).
  { symmetry. apply (Z.div_unique ts ns_per_second _ ns); [left; exact Hns|].
    rewrite Hts. ring. }
  assert (Hmod : ((day * 86400 + Z.of_nat n) mod 86400 = Z.of_nat n)%Z).
  { symmetry. apply (Z.mod_unique _ 86400 day (Z.of_nat n)); [left; lia|ring]. }
  split.
  - unfold strftime_HMS. rewrite Hdiv, Hmod, Nat2Z.id.
    destruct (seconds_split h mi s Hm Hs) as (H1 & H2 & H3).
    fold n in H1, H2, H3. now rewrite H1, H2, H3.
  - unfold date_only. symmetry.
    apply (Z.div_unique ts ns_per_day day (Z.of_nat n * ns_per_second + ns)).
    + left. unfold ns_per_day, ns_per_second in *. lia.
    + rewrite Hts. unfold ns_per_day. ring.
Qed.

Lemma timestamp_parts_witness :
  let ts := (14975 * ns_per_day + hms 9 5 7 + 250000000)%Z in
  strftime_HMS ts = "09:05:07" /\ date_only ts = 14975%Z.
Proof.
  intros ts.
  refine (timestamp_parts 14975 9 5 7 250000000 _ _ _ _); try lia.
  unfold ns_per_second. lia.
Defined.
End TimeFacts.

(* ================================================================== *)
(** * Shapes of a narrative *)
(* ================================================================== *)

Section NarrativeShapes.
Import Summary.

Lemma loop_without_web (events : list Event) (parts : list string) :
  forallb (fun e => negb (is_http (activity_type e))) events = true ->
  fold_left loop_body events (parts, [])
  = (parts ++
       map (fun e =>
              let time_str := PyStr.strftime_HMS (timestamp e) in
              match activity_type e with
              | logon => at_time "Logged on at" time_str
              | logoff => at_time "Logged off at" time_str
              | device_connect => at_time "Connected a USB device at" time_str
              | device_disconnect => at_time "Disconnected a USB device at" time_str
              | http _ => ""
              end) events, []).
Proof.
  revert parts. induction events as [|e events IH]; intros parts H.
  - simpl. now rewrite app_nil_r.
  - cbn [forallb] in H. apply andb_true_iff in H. destruct H as [He H].
    cbn [fold_left map].
    assert (Hstep : loop_body (parts, []) e
                    = (parts ++ [let time_str := PyStr.strftime_HMS (timestamp e) in
                                 match activity_type e with
                                 | logon => at_time "Logged on at" time_str
                                 | logoff => at_time "Logged off at" time_str
                                 | device_connect =>
                                     at_time "Connected a USB device at" time_str
                                 | device_disconnect =>
                                     at_time "Disconnected a USB device at" time_str
                                 | http _ => ""
                                 end], [])).
    { unfold loop_body. destruct (activity_type e); try discriminate He; reflexivity. }
    rewrite Hstep, (IH _ H), <- app_assoc. reflexivity.
Qed.

(** X10.  A bucket without web rows: after the header the narrative has
    one sentence per event, in the order of the events, each with the
    wording of its activity and the time of the event. *)
Theorem narrative_without_web (first_event : Event) (rest : list Event) :
  let events := first_event :: rest in
  forallb (fun e => negb (is_http (activity_type e))) events = true ->
  narrative_parts events
  = header first_event events ::
    map (fun e =>
           let time_str := PyStr.strftime_HMS (timestamp e) in
           match activity_type e with
           | logon => at_time "Logged on at" time_str
           | logoff => at_time "Logged off at" time_str
           | device_connect => at_time "Connected a USB device at" time_str
           | device_disconnect => at_time "Disconnected a USB device at" time_str
           | http _ => ""
           end) events.
Proof.
  intros events H. unfold narrative_parts, events at 1. fold events.
  rewrite (loop_without_web events _ H). reflexivity.
Qed.

Lemma narrative_without_web_witness :
  let row t a := {| timestamp := t; user_id := Some "u123"; role := "ITAdmin";
                    pc := "PC-01"; activity_type := a |} in
  narrative_parts [row (PyStr.hms 8 0 0) logon; row (PyStr.hms 8 30 0) device_connect;
                   row (PyStr.hms 9 0 0) device_disconnect; row (PyStr.hms 17 0 0) logoff]
  = ["User u123 (Role: ITAdmin) on PC-01:"; "Logged on at 08:00:00.";
     "Connected a USB device at 08:30:00."; "Disconnected a USB device at 09:00:00.";
     "Logged off at 17:00:00."].
Proof.
  intros row.
  exact (narrative_without_web (row (PyStr.hms 8 0 0) logon)
           [row (PyStr.hms 8 30 0) device_connect;
            row (PyStr.hms 9 0 0) device_disconnect; row (PyStr.hms 17 0 0) logoff]
           eq_refl).
Defined.

Lemma loop_all_web (events : list Event) (parts : list string) (buffer : list Event) :
  forallb (fun e => is_http (activity_type e)) events = true ->
  fold_left loop_body events (parts, buffer) = (parts, buffer ++ events).
Proof.
  revert buffer. induction events as [|e events IH]; intros buffer H.
  - simpl. now rewrite app_nil_r.
  - cbn [forallb] in H. apply andb_true_iff in H. destruct H as [He H].
    cbn [fold_left]. rewrite (loop_body_http _ _ _ He), (IH _ H), <- app_assoc.
    reflexivity.
Qed.

(** X11.  A bucket of web rows only: the narrative is the header and one
    summary of the whole bucket, however long the bucket is. *)
Theorem narrative_all_web (first_event : Event) (rest : list Event) :
  let events := first_event :: rest in
  forallb (fun e => is_http (activity_type e)) events = true ->
  narrative_parts events
  = [header first_event events; web_summary first_event events].
Proof.
  intros events H. unfold narrative_parts, events at 1. fold events.
  rewrite (loop_all_web events _ [] H). reflexivity.
Qed.

Lemma narrative_all_web_witness :
  let web t u := {| timestamp := t; user_id := Some "u123"; role := "ITAdmin";
                    pc := "PC-01"; activity_type := http u |} in
  narrative_parts [web (PyStr.hms 9 0 0) "http://a.com/x"; web (PyStr.hms 9 1 0) "http://a.com/y"]
  = ["User u123 (Role: ITAdmin) on PC-01:";
     "Between 09:00:00 and 09:01:00, visited 2 websites, including a.com (2 times)."].
Proof.
  intros web.
  exact (narrative_all_web (web (PyStr.hms 9 0 0) "http://a.com/x")
           [web (PyStr.hms 9 1 0) "http://a.com/y"] eq_refl).
Defined.

Lemma flush_length (parts : list string) (buffer : list Event) :
  List.length (fst (flush_web_buffer (parts, buffer)))
  = List.length parts + Nat.min 1 (List.length buffer).
Proof.
  destruct buffer as [|b buffer]; simpl; [lia|].
  rewrite length_app. simpl. lia.
Qed.

(** How many sentences the rest of a run adds: one per row that is not a
    web row, at most one web summary before each of them and one at the end,
    and at least one web summary when a web row is pending or still to come. *)
Lemma loop_length (events : list Event) :
  forall parts buffer,
    let n := List.length
               (fst (flush_web_buffer (fold_left loop_body events (parts, buffer)))) in
    let k := List.length events - List.length (web_rows events) in
    List.length parts + k
      + Nat.min 1 (List.length buffer + List.length (web_rows events)) <= n /\
    n <= List.length parts + 2 * k + 1.
Proof.
  induction events as [|e events IH]; intros parts buffer.
  - cbn [fold_left web_rows filter List.length]. rewrite flush_length. lia.
  - cbn [fold_left web_rows filter List.length].
    pose proof (filter_length_le (fun e => is_http (activity_type e)) events) as Hle.
    fold (web_rows events) in Hle.
    destruct (is_http (activity_type e)) eqn:He;
      change (filter (fun e0 => is_http (activity_type e0)) events)
        with (web_rows events).
    + rewrite (loop_body_http _ _ _ He).
      specialize (IH parts (buffer ++ [e])). cbn zeta in IH.
      rewrite length_app in IH. cbn [List.length] in IH |- *. lia.
    + destruct (loop_body_discrete parts buffer e He) as [what ->].
      specialize (IH (fst (flush_web_buffer (parts, buffer))
                        ++ [at_time what (PyStr.strftime_HMS (timestamp e))]) []).
      cbn zeta in IH. rewrite length_app, flush_length in IH.
      cbn [List.length] in IH |- *. lia.
Qed.

(** X12.  Web rows are collapsed: a bucket with [k] rows that are not web
    rows gives the header, [k] sentences for those rows, and between none
    and [k + 1] web summaries, whatever the number of web rows; there is at
    least one web summary as soon as there is a web row. *)
Theorem narrative_length_bounds (first_event : Event) (rest : list Event) :
  let events := first_event :: rest in
  let k := List.length events - List.length (web_rows events) in
  1 + k + Nat.min 1 (List.length (web_rows events))
    <= List.length (narrative_parts events) /\
  List.length (narrative_parts events) <= 2 * k + 2.
Proof.
  intros events k.
  pose proof (loop_length events [header first_event events] []) as H.
  cbn zeta in H. cbn [List.length] in H. fold k in H.
  assert (Hnp : narrative_parts events
                = fst (flush_web_buffer
                         (fold_left loop_body events
                                    ([header first_event events], []))))
    by reflexivity.
  rewrite Hnp. lia.
Qed.
End NarrativeShapes.

(* ================================================================== *)
(** * The order of the merged stream and of the groups *)
(* ================================================================== *)

Section OrderFacts.
Import Summary Pipeline.

Lemma user_leb_refl (u : option string) : user_leb u u = true.
Proof. destruct u; [apply string_leb_refl|reflexivity]. Qed.

Lemma user_leb_total (u v : option string) :
  user_leb u v = true \/ user_leb v u = true.
Proof. destruct u, v; simpl; auto. apply String.leb_total. Qed.

Lemma user_leb_trans (u v w : option string) :
  user_leb u v = true -> user_leb v w = true -> user_leb u w = true.
Proof.
  destruct u, v, w; simpl; try congruence. apply string_leb_trans.
Qed.

Lemma user_leb_antisym (u v : option string) :
  user_leb u v = true -> user_leb v u = true -> u = v.
Proof.
  destruct u, v; simpl; try congruence.
  intros H1 H2. f_equal. now apply String.leb_antisym.
Qed.

Lemma user_eqb_false (u v : option string) : user_eqb u v = false <-> u <> v.
Proof.
  rewrite <- user_eqb_eq. destruct (user_eqb u v); split; congruence.
Qed.

(** What [key_leb] compares. *)
Lemma key_leb_spec (a b : Event) :
  key_leb a b = true
  <-> user_leb (user_id a) (user_id b) = true /\
      (user_id a = user_id b -> (timestamp a <= timestamp b)%Z).
Proof.
  unfold key_leb. destruct (user_eqb (user_id a) (user_id b)) eqn:E.
  - apply user_eqb_eq in E. rewrite E, user_leb_refl, Z.leb_le. tauto.
  - apply user_eqb_false in E. tauto.
Qed.

Lemma key_leb_total (a b : Event) : key_leb a b = true \/ key_leb b a = true.
Proof.
  rewrite !key_leb_spec.
  destruct (user_eqb (user_id a) (user_id b)) eqn:E.
  - apply user_eqb_eq in E. rewrite E, user_leb_refl.
    destruct (Z.le_ge_cases (timestamp a) (timestamp b)); [left|right]; auto.
  - apply user_eqb_false in E.
    destruct (user_leb_total (user_id a) (user_id b)); [left|right];
      (split; [assumption|congruence]).
Qed.

Lemma key_leb_trans (a b c : Event) :
  key_leb a b = true -> key_leb b c = true -> key_leb a c = true.
Proof.
  rewrite !key_leb_spec. intros [U1 T1] [U2 T2]. split.
  - now apply user_leb_trans with (user_id b).
  - intros E. rewrite E in U1.
    assert (Hbc : user_id b = user_id c) by now apply user_leb_antisym.
    assert (Hab : user_id a = user_id b) by congruence.
    specialize (T1 Hab). specialize (T2 Hbc). lia.
Qed.

Lemma final_df_sorted (m : role_map) (logon_df device_df : list Raw.row)
    (http_df : list RawHttp.row) :
  StronglySorted (fun a b => key_leb a b = true)
                 (final_df m logon_df device_df http_df).
Proof. apply sort_sorted; [apply key_leb_total|apply key_leb_trans]. Qed.

(** X13.  The merged stream is sorted: of two rows, the earlier one has the
    smaller [user_id] (a missing one counts as the largest), and when the
    two have the same [user_id], the smaller or equal timestamp. *)
Theorem merged_stream_sorted (m : role_map) (logon_df device_df : list Raw.row)
    (http_df : list RawHttp.row) :
  StronglySorted
    (fun a b => user_leb (user_id a) (user_id b) = true /\
                (user_id a = user_id b -> (timestamp a <= timestamp b)%Z))
    (final_df m logon_df device_df http_df).
Proof.
  eapply StronglySorted_transport; [|apply final_df_sorted].
  intros a b _ _ H. now apply key_leb_spec.
Qed.

Lemma in_group_date (k : string * Z) (e : Event) :
  in_group k e = true ->
  user_id e = Some (fst k) /\ date_only (timestamp e) = snd k.
Proof.
  intros H. apply in_group_key in H. unfold group_key in H.
  destruct (user_id e); [|discriminate]. inversion H. auto.
Qed.

(** X14.  In every group handed to the summariser the events have the
    user and the calendar day of the group and stand by non-decreasing
    timestamp. *)
Theorem bucket_is_chronological (m : role_map) (logon_df device_df : list Raw.row)
    (http_df : list RawHttp.row) (k : string * Z) (bucket : list Event) :
  In (k, bucket) (groupby (final_df m logon_df device_df http_df)) ->
  Forall (fun e => user_id e = Some (fst k) /\ date_only (timestamp e) = snd k)
         bucket /\
  StronglySorted (fun a b => (timestamp a <= timestamp b)%Z) bucket.
Proof.
  intros H. apply groupby_bucket in H. destruct H as [-> _]. split.
  - apply Forall_forall. intros e He. apply filter_In in He.
    now apply in_group_date.
  - apply StronglySorted_transport
      with (R := fun a b => key_leb a b = true).
    + intros a b Ha Hb Hab. apply filter_In in Ha, Hb.
      destruct Ha as [_ Ha], Hb as [_ Hb].
      apply in_group_date in Ha, Hb. apply key_leb_spec in Hab.
      apply (proj2 Hab). destruct Ha as [-> _], Hb as [-> _]. reflexivity.
    + apply StronglySorted_filter, final_df_sorted.
Qed.

Lemma bucket_is_chronological_witness :
  let l := [{| Raw.date := PyStr.hms 17 0 0; Raw.user := "DTAA/ABC0174";
               Raw.pc := "PC-1"; Raw.activity := "Logoff" |};
            {| Raw.date := PyStr.hms 8 0 0; Raw.user := "DTAA/ABC0174";
               Raw.pc := "PC-1"; Raw.activity := "Logon" |}] in
  let row t a := {| timestamp := t; user_id := Some "ABC0174"; role := "Unknown";
                    pc := "PC-1"; activity_type := a |} in
  let bucket := [row (PyStr.hms 8 0 0) logon; row (PyStr.hms 17 0 0) logoff] in
  In (("ABC0174", 0%Z), bucket) (groupby (final_df [] l [] [])) /\
  StronglySorted (fun a b => (timestamp a <= timestamp b)%Z) bucket.
Proof.
  intros l row bucket.
  assert (Hin : In (("ABC0174", 0%Z), bucket) (groupby (final_df [] l [] [])))
    by (left; reflexivity).
  split; [exact Hin|].
  exact (proj2 (bucket_is_chronological [] l [] [] _ _ Hin)).
Defined.

Lemma distinct_NoDup (ks : list (string * Z)) : NoDup (distinct ks).
Proof.
  induction ks as [|k ks IH]; simpl; constructor.
  - rewrite filter_In, negb_true_iff.
    rewrite (proj2 (group_eqb_eq k k) eq_refl). intros [_ H]. discriminate.
  - now apply NoDup_filter.
Qed.

Lemma groupby_keys (df : list Event) : map fst (groupby df) = group_keys df.
Proof. unfold groupby. rewrite map_map. simpl. apply map_id. Qed.

Lemma group_keys_NoDup (df : list Event) : NoDup (group_keys df).
Proof.
  unfold group_keys.
  eapply Permutation_NoDup; [symmetry; apply sort_perm|apply distinct_NoDup].
Qed.

(** X15.  The groups partition the rows that have a [user_id]: the group
    keys are distinct, every such row is in the group of its user and day,
    and a row is in no other group. *)
Theorem groups_partition (df : list Event) :
  NoDup (map fst (groupby df)) /\
  (forall e u, In e df -> user_id e = Some u ->
     exists bucket,
       In ((u, date_only (timestamp e)), bucket) (groupby df) /\ In e bucket) /\
  (forall k bucket e, In (k, bucket) (groupby df) -> In e bucket ->
     In e df /\
     forall k' bucket', In (k', bucket') (groupby df) -> In e bucket' -> k' = k).
Proof.
  split; [rewrite groupby_keys; apply group_keys_NoDup|]. split.
  - intros e u He Hu.
    assert (Hk : group_key e = Some (u, date_only (timestamp e)))
      by (unfold group_key; now rewrite Hu).
    exists (filter (in_group (u, date_only (timestamp e))) df). split.
    + unfold groupby. apply in_map_iff. exists (u, date_only (timestamp e)).
      split; [reflexivity|]. unfold group_keys.
      apply sort_In, distinct_In, in_flat_map. exists e.
      split; [exact He|]. rewrite Hk. now left.
    + apply filter_In. split; [exact He|]. now apply in_group_key.
  - intros k bucket e H He. apply groupby_bucket in H. destruct H as [-> _].
    apply filter_In in He. destruct He as [He Hg]. split; [exact He|].
    intros k' bucket' H' He'. apply groupby_bucket in H'. destruct H' as [-> _].
    apply filter_In in He'. destruct He' as [_ Hg'].
    apply in_group_key in Hg, Hg'. congruence.
Qed.

Lemma groups_partition_witness :
  let e := {| timestamp := PyStr.hms 8 0 0; user_id := Some "ABC0174";
              role := "Unknown"; pc := "PC-1"; activity_type := logon |} in
  In e [e] /\
  exists bucket, In (("ABC0174", 0%Z), bucket) (groupby [e]) /\ In e bucket.
Proof.
  intros e.
  assert (Hin : In e [e]) by now left.
  split; [exact Hin|].
  exact (proj1 (proj2 (groups_partition [e])) e "ABC0174" Hin eq_refl).
Defined.



End OrderFacts.

(* ================================================================== *)
(** * Counts in a web summary and the machine of the header *)
(* ================================================================== *)

Section CountFacts.
Import Summary.

Lemma counter_add_sum (k : string) (c : counter) :
  list_sum (map snd (counter_add k c)) = S (list_sum (map snd c)).
Proof.
  unfold list_sum. induction c as [|[k' n] c IH]; [reflexivity|].
  cbn [counter_add]. destruct (String.eqb k' k); cbn [map snd fold_right].
  - reflexivity.
  - rewrite IH. lia.
Qed.

Lemma Counter_sum (l : list string) :
  list_sum (map snd (Counter l)) = List.length l.
Proof.
  unfold Counter.
  assert (H : forall c, list_sum (map snd (fold_left (fun c k => counter_add k c) l c))
                        = list_sum (map snd c) + List.length l).
  { induction l as [|k l IH]; intros c; cbn [fold_left List.length]; [lia|].
    rewrite IH, counter_add_sum. lia. }
  now rewrite H.
Qed.

Lemma list_sum_perm (l l' : list nat) : Permutation l l' -> list_sum l = list_sum l'.
Proof. unfold list_sum. induction 1; simpl; lia. Qed.

Lemma list_sum_firstn (n : nat) (l : list nat) : list_sum (firstn n l) <= list_sum l.
Proof.
  unfold list_sum. revert n. induction l as [|x l IH]; intros [|n]; simpl; try lia.
  specialize (IH n). lia.
Qed.

Lemma sorted_counter_keys (l : list string) :
  Permutation (map fst (Stable.sort by_count_desc (Counter l)))
              (first_occurrences l).
Proof.
  rewrite (Permutation_map fst (sort_perm by_count_desc (Counter l))).
  rewrite Counter_spec, map_map. simpl. now rewrite map_id.
Qed.

Lemma NoDup_firstn {A} (n : nat) (l : list A) : NoDup l -> NoDup (firstn n l).
Proof.
  intros H. rewrite <- (firstn_skipn n l) in H.
  now apply NoDup_app_remove_r in H.
Qed.

(** X17.  The counts of a web summary: the listed domains are distinct,
    each has been visited at least once, and the counts add up to at most
    the number of visits printed before them; when the buffer has at most
    three distinct domains, every domain is listed and the counts add up to
    that number exactly. *)
Theorem listed_counts (buffer : list Event) :
  let top := top_domains buffer in
  NoDup (map fst top) /\
  (forall d c, In (d, c) top -> 1 <= c) /\
  list_sum (map snd top) <= List.length buffer /\
  (List.length (nodup string_dec (domains buffer)) <= 3 ->
   list_sum (map snd top) = List.length buffer /\
   forall d, In d (domains buffer) -> In d (map fst top)).
Proof.
  intros top. unfold top, top_domains, most_common.
  set (ds := domains buffer).
  set (sorted := Stable.sort by_count_desc (Counter ds)).
  assert (Hlen : List.length buffer = List.length ds)
    by (unfold ds, domains; now rewrite length_map).
  assert (Hsum : list_sum (map snd sorted) = List.length ds).
  { unfold sorted.
    rewrite (list_sum_perm _ _ (Permutation_map snd (sort_perm by_count_desc (Counter ds)))).
    apply Counter_sum. }
  split; [|split; [|split]].
  - rewrite <- firstn_map. apply NoDup_firstn.
    eapply Permutation_NoDup;
      [symmetry; apply sorted_counter_keys|apply first_occurrences_NoDup].
  - intros d c H.
    assert (Hc : In (d, c) (Counter ds)).
    { apply (sort_In by_count_desc). fold sorted.
      rewrite <- (firstn_skipn 3 sorted). apply in_or_app. now left. }
    apply Counter_In in Hc. destruct Hc as [Hd ->].
    apply (count_occ_In string_dec) in Hd. unfold count. lia.
  - rewrite <- firstn_map, Hlen, <- Hsum. apply list_sum_firstn.
  - intros H3.
    assert (Hall : firstn 3 sorted = sorted).
    { apply firstn_all2. unfold sorted. now rewrite sort_length, Counter_length. }
    rewrite Hall. split; [congruence|].
    intros d Hd. apply in_map_iff. exists (d, count d ds). split; [reflexivity|].
    apply sort_In, Counter_In. auto.
Qed.

Lemma listed_counts_witness :
  let web t u := {| timestamp := t; user_id := Some "u123"; role := "ITAdmin";
                    pc := "PC-01"; activity_type := http u |} in
  let buffer := [web (PyStr.hms 9 0 0) "http://a.com/x"; web (PyStr.hms 9 1 0) "http://b.org/";
                 web (PyStr.hms 9 2 0) "http://a.com/y"] in
  List.length (nodup string_dec (domains buffer)) <= 3 /\
  list_sum (map snd (top_domains buffer)) = 3.
Proof.
  intros web buffer.
  assert (H : List.length (nodup string_dec (domains buffer)) <= 3)
    by (vm_compute; lia).
  split; [exact H|].
  exact (proj1 (proj2 (proj2 (proj2 (listed_counts buffer))) H)).
Defined.

(** X18.  A machine used by strictly more rows of the bucket than any
    other machine is the one named in the header. *)
Theorem header_pc_majority (pcs : list string) (x : string) :
  In x pcs ->
  (forall q, In q pcs -> q <> x -> count q pcs < count x pcs) ->
  header_pc pcs = x.
Proof.
  intros Hx Hmaj.
  assert (Hne : pcs <> []) by (intros ->; contradiction).
  destruct (header_pc_spec pcs Hne) as (Hin & Hmax & _).
  destruct (string_dec (header_pc pcs) x) as [E|E]; [exact E|].
  specialize (Hmaj _ Hin E). specialize (Hmax x). lia.
Qed.

Lemma header_pc_majority_witness : header_pc ["PC-B"; "PC-A"; "PC-B"] = "PC-B".
Proof.
  apply header_pc_majority.
  - now left.
  - intros q [<-|[<-|[<-|[]]]] Hq; try congruence. vm_compute. lia.
Defined.
End CountFacts.

(* ================================================================== *)
(** * What a narrative depends on *)
(* ================================================================== *)

Section Relabelling.
Import Summary.

(** A change of the events that leaves alone what the summariser reads:
    the printed time, the activity with its url, and the user, role and
    machine. *)
Variable f : Event -> Event.
Hypothesis f_time :
  forall e, PyStr.strftime_HMS (timestamp (f e)) = PyStr.strftime_HMS (timestamp e).
Hypothesis f_activity : forall e, activity_type (f e) = activity_type e.
Hypothesis f_user : forall e, user_id (f e) = user_id e.
Hypothesis f_role : forall e, role (f e) = role e.
Hypothesis f_pc : forall e, pc (f e) = pc e.

Lemma last_map_default (b : list Event) (d : Event) :
  List.last (map f b) (f d) = f (List.last b d).
Proof.
  induction b as [|x b IH]; [reflexivity|].
  destruct b as [|y b]; [reflexivity|]. exact IH.
Qed.

Lemma web_summary_relabel (first : Event) (b : list Event) :
  web_summary (f first) (map f b) = web_summary first b.
Proof.
  unfold web_summary, top_domains, domains.
  rewrite last_map_default, !f_time, length_map, map_map.
  rewrite (map_ext (fun x => url_domain (url (f x))) (fun x => url_domain (url x)))
    by (intros e; unfold url; now rewrite f_activity).
  reflexivity.
Qed.

Lemma flush_relabel (parts : list string) (b : list Event) :
  flush_web_buffer (parts, map f b)
  = (fst (flush_web_buffer (parts, b)), map f (snd (flush_web_buffer (parts, b)))).
Proof.
  destruct b as [|first b]; [reflexivity|].
  change (map f (first :: b)) with (f first :: map f b).
  cbn [flush_web_buffer fst snd].
  change (f first :: map f b) with (map f (first :: b)).
  now rewrite web_summary_relabel.
Qed.

Lemma loop_body_relabel (parts : list string) (b : list Event) (e : Event) :
  loop_body (parts, map f b) (f e)
  = (fst (loop_body (parts, b) e), map f (snd (loop_body (parts, b) e))).
Proof.
  unfold loop_body. rewrite f_activity, f_time.
  destruct (is_http (activity_type e)) eqn:He.
  - destruct (activity_type e); try discriminate He.
    cbn [fst snd]. now rewrite map_app.
  - rewrite flush_relabel.
    destruct (flush_web_buffer (parts, b)) as [parts' b'].
    cbn [fst snd]. destruct (activity_type e); try discriminate He; reflexivity.
Qed.

Lemma loop_relabel (events : list Event) :
  forall parts b,
    fold_left loop_body (map f events) (parts, map f b)
    = (fst (fold_left loop_body events (parts, b)),
       map f (snd (fold_left loop_body events (parts, b)))).
Proof.
  induction events as [|e events IH]; intros parts b; [reflexivity|].
  cbn [map fold_left]. rewrite loop_body_relabel.
  destruct (loop_body (parts, b) e) as [parts' b']. cbn [fst snd]. apply IH.
Qed.

Lemma parts_relabel (first : Event) (rest : list Event) :
  narrative_parts (map f (first :: rest)) = narrative_parts (first :: rest).
Proof.
  assert (Hdef : forall fe r,
             narrative_parts (fe :: r)
             = fst (flush_web_buffer
                      (fold_left loop_body (fe :: r) ([header fe (fe :: r)], []))))
    by reflexivity.
  assert (Hh : header (f first) (f first :: map f rest) = header first (first :: rest)).
  { change (f first :: map f rest) with (map f (first :: rest)).
    unfold header. rewrite f_user, f_role, map_map.
    now rewrite (map_ext (fun x => pc (f x)) pc f_pc). }
  pose proof (loop_relabel (first :: rest) [header first (first :: rest)] []) as H.
  cbn [map] in H. cbn [map]. rewrite !Hdef, Hh, H.
  destruct (fold_left loop_body (first :: rest) ([header first (first :: rest)], []))
    as [parts b].
  cbn [fst snd]. now rewrite flush_relabel.
Qed.

Lemma summary_relabel (events : list Event) :
  create_summary_from_events (map f events) = create_summary_from_events events.
Proof.
  destruct events as [|first rest]; [reflexivity|].
  pose proof (parts_relabel first rest) as H.
  unfold create_summary_from_events. cbn [map] in H |- *. now rewrite H.
Qed.
End Relabelling.

Section NarrativeDependencies.
Import Summary Pipeline Directory.

Lemma strftime_periodic (ts d : Z) :
  PyStr.strftime_HMS (ts + d * PyStr.ns_per_day) = PyStr.strftime_HMS ts.
Proof.
  unfold PyStr.strftime_HMS, PyStr.ns_per_day.
  replace (ts + d * (86400 * PyStr.ns_per_second))%Z
    with (ts + (d * 86400) * PyStr.ns_per_second)%Z by ring.
  rewrite Z.div_add by (unfold PyStr.ns_per_second; lia).
  rewrite Z.mod_add by lia. reflexivity.
Qed.

(** X19.  The narrative carries the time of day only: moving every event
    of a bucket by the same whole number of days leaves the narrative
    unchanged. *)
Theorem narrative_ignores_day (d : Z) (events : list Event) :
  create_summary_from_events
    (map (fun e => {| timestamp := timestamp e + d * PyStr.ns_per_day;
                      user_id := user_id e; role := role e; pc := pc e;
                      activity_type := activity_type e |}) events)
  = create_summary_from_events events.
Proof.
  apply summary_relabel; intros e; cbn; try reflexivity.
  apply strftime_periodic.
Qed.

(** X20.  Without any LDAP file the run goes on with an empty role map:
    no row is lost, and every event, hence every narrative header, has the
    role [Unknown]. *)
Theorem no_directory_all_unknown (logon_df device_df : list Raw.row)
    (http_df : list RawHttp.row) :
  let m := process_ldap_data [] in
  List.length (final_df m logon_df device_df http_df)
  = List.length logon_df + List.length device_df + List.length http_df /\
  Forall (fun e => role e = "Unknown") (final_df m logon_df device_df http_df) /\
  Forall (fun rec => exists p tail,
              narrative rec
              = ("User " ++ user rec ++ " (Role: Unknown) on " ++ p ++ ":" ++ tail)%string)
         (generate_narratives m logon_df device_df http_df).
Proof.
  intros m.
  assert (Hrole : forall e, In e (final_df m logon_df device_df http_df) ->
                            role e = "Unknown").
  { intros e He. apply final_df_In in He.
    apply (unmatched_role _ _ _ _ _ He). intros u _ []. }
  split; [|split].
  - unfold final_df, sort_values, all_events,
      logon_events, device_events, http_events, with_user_id.
    rewrite sort_length, !length_app, !length_map.
    rewrite !(merge_left_unique _ m (NoDup_nil _)), !length_map. lia.
  - apply Forall_forall. exact Hrole.
  - apply Forall_forall. intros rec Hrec.
    apply generate_narratives_from in Hrec. destruct Hrec as (bucket & Hb & ->).
    destruct (groupby_bucket _ _ _ Hb) as [_ (first & rest & ->)].
    destruct (bucket_rows _ _ _ first Hb (or_introl eq_refl)) as [Hin Hu].
    simpl in Hu.
    destruct (summary_begins_with_header first rest) as [tail ->].
    unfold header. rewrite Hu, (Hrole first Hin). cbn [show_user].
    exists (header_pc (map pc (first :: rest))), tail.
    rewrite !string_app_assoc. reflexivity.
Qed.
End NarrativeDependencies.

(* ================================================================== *)
(** * Every web row in exactly one web summary *)
(* ================================================================== *)

Section SegmentFacts.
Import Summary Segments.

Lemma loop_body_single (parts : list string) (buffer : list Event) (e : Event) :
  is_http (activity_type e) = false ->
  loop_body (parts, buffer) e
  = (fst (flush_web_buffer (parts, buffer)) ++ [event_sentence e], []).
Proof.
  intros H. unfold loop_body, event_sentence. rewrite H.
  pose proof (flush_clears (parts, buffer)) as Hc.
  destruct (flush_web_buffer (parts, buffer)) as [parts' buffer'].
  simpl in Hc. subst buffer'.
  destruct (activity_type e); try discriminate H; reflexivity.
Qed.

Lemma flush_segments (parts : list string) (buffer : list Event) :
  forallb (fun e => is_http (activity_type e)) buffer = true ->
  exists segs,
    fst (flush_web_buffer (parts, buffer)) = parts ++ map render_segment segs /\
    List.concat (map segment_events segs) = buffer /\
    Forall well_formed segs /\
    (segs = [] \/ exists first, segs = [Run first buffer]).
Proof.
  intros Hb. destruct buffer as [|first rest].
  - exists []. simpl. rewrite app_nil_r. repeat split; auto.
  - exists [Run first (first :: rest)]. cbn [map render_segment List.concat segment_events].
    rewrite app_nil_r. repeat split.
    + constructor; [|constructor]. split; [now exists rest|exact Hb].
    + right. now exists first.
Qed.

(** The invariant of the loop, with the rows themselves: the pieces written
    so far, followed by the rows still in the buffer, are the rows read so
    far. *)
Lemma loop_segments (events : list Event) :
  forall parts buffer,
    forallb (fun e => is_http (activity_type e)) buffer = true ->
    exists segs,
      fst (flush_web_buffer (fold_left loop_body events (parts, buffer)))
      = parts ++ map render_segment segs /\
      List.concat (map segment_events segs) = buffer ++ events /\
      Forall well_formed segs /\
      separated segs.
Proof.
  induction events as [|e events IH]; intros parts buffer Hb.
  - destruct (flush_segments parts buffer Hb) as (segs & H1 & H2 & H3 & H4).
    exists segs. cbn [fold_left]. rewrite app_nil_r. repeat split; auto.
    destruct H4 as [->|[first ->]]; simpl; auto.
  - cbn [fold_left]. destruct (is_http (activity_type e)) eqn:He.
    + rewrite (loop_body_http _ _ _ He).
      destruct (IH parts (buffer ++ [e])) as (segs & H1 & H2 & H3 & H4).
      { rewrite forallb_app, Hb. simpl. now rewrite He. }
      exists segs. rewrite H1, H2, <- app_assoc. auto.
    + rewrite (loop_body_single _ _ _ He).
      destruct (flush_segments parts buffer Hb) as (segs0 & F1 & F2 & F3 & F4).
      rewrite F1.
      destruct (IH ((parts ++ map render_segment segs0) ++ [event_sentence e]) [] eq_refl)
        as (segs & H1 & H2 & H3 & H4).
      exists (segs0 ++ Single e :: segs). split; [|split; [|split]].
      * rewrite H1, map_app. cbn [map render_segment].
        rewrite <- !app_assoc. reflexivity.
      * rewrite map_app, List.concat_app. cbn [map List.concat segment_events].
        rewrite F2, H2. reflexivity.
      * apply Forall_app. split; [exact F3|]. constructor; [exact He|exact H3].
      * destruct F4 as [->|[first ->]]; cbn [app separated is_run andb];
          repeat split; auto; now destruct segs.
Qed.

Lemma segment_totals (segs : list segment) :
  Forall well_formed segs ->
  list_sum (map segment_total segs)
  = List.length (web_rows (List.concat (map segment_events segs))).
Proof.
  unfold list_sum, web_rows.
  induction 1 as [|s segs Hs _ IH]; [reflexivity|].
  cbn [map List.concat fold_right]. rewrite filter_app, length_app, IH. f_equal.
  destruct s as [e|first b]; cbn [segment_total segment_events well_formed] in *.
  - cbn [filter]. now rewrite Hs.
  - destruct Hs as [_ Hb]. now rewrite (forallb_filter_id _ _ Hb).
Qed.

(** A run of web rows followed by nothing or by a row that is not a web
    row is determined by the list it starts. *)
Lemma maximal_run_unique (b1 b2 c1 c2 : list Event) :
  forallb (fun e => is_http (activity_type e)) b1 = true ->
  forallb (fun e => is_http (activity_type e)) b2 = true ->
  match c1 with [] => True | x :: _ => is_http (activity_type x) = false end ->
  match c2 with [] => True | x :: _ => is_http (activity_type x) = false end ->
  b1 ++ c1 = b2 ++ c2 -> b1 = b2 /\ c1 = c2.
Proof.
  revert b2. induction b1 as [|x b1 IH]; intros b2 H1 H2 Hc1 Hc2 E.
  - destruct b2 as [|y b2]; [auto|]. exfalso. simpl in E. subst c1.
    simpl in H2. apply andb_true_iff in H2. destruct H2 as [Hy _]. congruence.
  - destruct b2 as [|y b2].
    + exfalso. simpl in E. subst c2.
      simpl in H1. apply andb_true_iff in H1. destruct H1 as [Hx _]. congruence.
    + simpl in E. inversion E; subst y.
      simpl in H1, H2. apply andb_true_iff in H1, H2.
      destruct (IH b2 (proj2 H1) (proj2 H2) Hc1 Hc2 H3) as [-> ->]. auto.
Qed.

Lemma after_run (s : segment) (tl : list segment) :
  Forall well_formed tl ->
  match tl with s' :: _ => is_run s && is_run s' = false | [] => True end ->
  is_run s = true ->
  match List.concat (map segment_events tl) with
  | [] => True
  | x :: _ => is_http (activity_type x) = false
  end.
Proof.
  intros Hwf Hsep Hs. destruct tl as [|s' tl]; [exact I|].
  rewrite Hs in Hsep. inversion Hwf as [|? ? Hs' _]; subst.
  destruct s' as [e|f b]; [exact Hs'|discriminate Hsep].
Qed.

(** The cut of a bucket into single rows and maximal runs is unique. *)
Lemma segments_unique (segs1 : list segment) :
  forall segs2,
    Forall well_formed segs1 -> Forall well_formed segs2 ->
    separated segs1 -> separated segs2 ->
    List.concat (map segment_events segs1) = List.concat (map segment_events segs2) ->
    segs1 = segs2.
Proof.
  induction segs1 as [|s1 t1 IH]; intros segs2 W1 W2 S1 S2 E.
  - destruct segs2 as [|s2 t2]; [reflexivity|]. exfalso.
    inversion W2 as [|? ? Hs2 _]; subst.
    destruct s2 as [e|f b]; [discriminate E|].
    destruct Hs2 as [[rest ->] _]. discriminate E.
  - inversion W1 as [|? ? Hs1 W1']; subst. destruct S1 as [Sh1 S1'].
    destruct segs2 as [|s2 t2].
    + exfalso. destruct s1 as [e|f b]; [discriminate E|].
      destruct Hs1 as [[rest ->] _]. discriminate E.
    + inversion W2 as [|? ? Hs2 W2']; subst. destruct S2 as [Sh2 S2'].
      cbn [map List.concat] in E.
      destruct s1 as [e1|f1 b1], s2 as [e2|f2 b2];
        cbn [segment_events well_formed] in *.
      * inversion E; subst. f_equal. now apply IH.
      * exfalso. destruct Hs2 as [[rest ->] Hb]. inversion E; subst.
        simpl in Hb. apply andb_true_iff in Hb. destruct Hb as [Hb _]. congruence.
      * exfalso. destruct Hs1 as [[rest ->] Hb]. inversion E; subst.
        simpl in Hb. apply andb_true_iff in Hb. destruct Hb as [Hb _]. congruence.
      * destruct Hs1 as [[r1 Hr1] Hb1], Hs2 as [[r2 Hr2] Hb2].
        destruct (maximal_run_unique b1 b2 _ _ Hb1 Hb2
                    (after_run (Run f1 b1) t1 W1' Sh1 eq_refl)
                    (after_run (Run f2 b2) t2 W2' Sh2 eq_refl) E) as [Eb Et].
        subst b1 b2. inversion Eb; subst. f_equal. now apply IH.
Qed.

(** C10.  Each web row is appended to the buffer once, and every flush
    leaves the buffer empty.  Hence a bucket is cut, in one way only, into
    its rows that are not web rows and its maximal runs of web rows; the
    narrative has, after the header, one sentence per piece in order: the
    row's own sentence, or one web summary that prints the length of the
    run.  Every web row is thus counted by exactly one web summary, and the
    totals printed add up to the number of web rows. *)
Theorem web_rows_accounted :
  (forall st, snd (flush_web_buffer st) = []) /\
  (forall parts buffer e,
      is_http (activity_type e) = true ->
      loop_body (parts, buffer) e = (parts, buffer ++ [e])) /\
  (forall st e, is_http (activity_type e) = false -> snd (loop_body st e) = []) /\
  (forall first_event rest,
      let events := first_event :: rest in
      exists segs,
        narrative_parts events
        = header first_event events :: map render_segment segs /\
        List.concat (map segment_events segs) = events /\
        Forall well_formed segs /\
        separated segs /\
        (forall segs',
            List.concat (map segment_events segs') = events ->
            Forall well_formed segs' -> separated segs' -> segs' = segs) /\
        Forall (fun s =>
                  match s with
                  | Single _ => True
                  | Run first b =>
                      render_segment s
                      = ("Between " ++ PyStr.strftime_HMS (timestamp first)
                           ++ " and "
                           ++ PyStr.strftime_HMS (timestamp (List.last b first))
                           ++ ", visited " ++ PyStr.of_nat (segment_total s)
                           ++ " websites, including "
                           ++ PyStr.join ", " (map domain_item (top_domains b))
                           ++ ".")%string
                  end) segs /\
        list_sum (map segment_total segs) = List.length (web_rows events)).
Proof.
  split; [exact flush_clears|]. split; [exact loop_body_http|]. split.
  - intros [parts buffer] e He. now rewrite (loop_body_single _ _ _ He).
  - intros first_event rest events.
    destruct (loop_segments events [header first_event events] [] eq_refl)
      as (segs & H1 & H2 & H3 & H4).
    exists segs. split; [exact H1|]. split; [exact H2|].
    split; [exact H3|]. split; [exact H4|]. split; [|split].
    + intros segs' E W S. apply segments_unique; auto. now rewrite E, H2.
    + apply Forall_forall. intros [e|first b] _; [exact I|reflexivity].
    + now rewrite (segment_totals segs H3), H2.
Qed.

Lemma web_rows_accounted_witness :
  let row t a := {| timestamp := t; user_id := Some "u123"; role := "ITAdmin";
                    pc := "PC-01"; activity_type := a |} in
  let w1 := row (PyStr.hms 8 1 0) (http "http://example.com/a") in
  let w2 := row (PyStr.hms 8 2 0) (http "http://test.org/") in
  is_http (activity_type w2) = true /\
  loop_body (["h"], [w1]) w2 = (["h"], [w1; w2]) /\
  snd (flush_web_buffer (["h"], [w1; w2])) = [].
Proof.
  intros row w1 w2.
  assert (H : is_http (activity_type w2) = true) by reflexivity.
  split; [exact H|]. split.
  - exact (proj1 (proj2 web_rows_accounted) ["h"] [w1] w2 H).
  - exact (proj1 web_rows_accounted (["h"], [w1; w2])).
Defined.

Example web_summaries_sample :
  let row t a := {| timestamp := t; user_id := Some "u123"; role := "ITAdmin";
                    pc := "PC-01"; activity_type := a |} in
  narrative_parts [row (PyStr.hms 8 0 0) (http "http://a.com/x");
                   row (PyStr.hms 8 5 0) logon;
                   row (PyStr.hms 8 6 0) (http "http://b.org/")]
  = ["User u123 (Role: ITAdmin) on PC-01:";
     "Between 08:00:00 and 08:00:00, visited 1 websites, including a.com (1 times).";
     "Logged on at 08:05:00.";
     "Between 08:06:00 and 08:06:00, visited 1 websites, including b.org (1 times)."].
Proof. reflexivity. Qed.
End SegmentFacts.

(* ================================================================== *)
(** * One bucket, one narrative *)
(* ================================================================== *)

Section MachineFacts.
Import Summary Machine.

(** Two sorted lists with the same elements are equal. *)
Lemma sorted_perm_eq {A} (leb : A -> A -> bool)
    (leb_antisym : forall x y, leb x y = true -> leb y x = true -> x = y)
    (l1 : list A) :
  forall l2,
    StronglySorted (fun a b => leb a b = true) l1 ->
    StronglySorted (fun a b => leb a b = true) l2 ->
    Permutation l1 l2 -> l1 = l2.
Proof.
  induction l1 as [|x l1 IH]; intros l2 S1 S2 P.
  - now apply Permutation_nil in P.
  - destruct l2 as [|y l2]; [now apply Permutation_sym, Permutation_nil in P|].
    apply StronglySorted_inv in S1, S2.
    destruct S1 as [S1 A1], S2 as [S2 A2].
    rewrite Forall_forall in A1, A2.
    assert (Hxy : x = y).
    { assert (Hx : In x (y :: l2)) by (apply (Permutation_in _ P); now left).
      assert (Hy : In y (x :: l1))
        by (apply (Permutation_in _ (Permutation_sym P)); now left).
      destruct Hx as [Hx|Hx]; [congruence|].
      destruct Hy as [Hy|Hy]; [congruence|].
      apply leb_antisym; [now apply A1|now apply A2]. }
    subst y. f_equal. apply IH; auto. now apply Permutation_cons_inv in P.
Qed.

(** [mode] is what [Series.mode()] returns, and it is all it can return:
    the order of the hash table does not show in the result. *)
Lemma mode_returns_mode (l : list string) : mode_returns l (mode l).
Proof.
  unfold mode. constructor; [apply NoDup_nodup|].
  intros x. rewrite nodup_In, filter_In, Nat.eqb_eq. tauto.
Qed.

Lemma mode_returns_unique (l m1 m2 : list string) :
  mode_returns l m1 -> mode_returns l m2 -> m1 = m2.
Proof.
  intros [t1 N1 H1] [t2 N2 H2].
  apply (sorted_perm_eq String.leb String.leb_antisym).
  - apply sort_sorted; [apply String.leb_total|apply string_leb_trans].
  - apply sort_sorted; [apply String.leb_total|apply string_leb_trans].
  - rewrite !sort_perm. apply NoDup_Permutation; auto.
    intros x. now rewrite H1, H2.
Qed.

Lemma flushes_iff (st st' : state) : flushes st st' <-> st' = flush_web_buffer st.
Proof.
  split.
  - intros []; reflexivity.
  - intros ->. destruct st as [parts [|first rest]]; constructor.
Qed.

Lemma step_iff (st st' : state) (e : Event) :
  step st e st' <-> st' = loop_body st e.
Proof.
  split.
  - intros H; inversion H as [? ? ? ? Ha Hf|? ? ? ? Ha Hf|? ? ? ? Ha Hf|? ? ? ? Ha Hf|? ? ? ? Ha];
      subst; unfold loop_body; rewrite Ha; cbn [is_http];
        try (apply flushes_iff in Hf; rewrite <- Hf); reflexivity.
  - intros ->. unfold loop_body.
    destruct (activity_type e) as [| | | |u] eqn:Ha; cbn [is_http].
    + destruct (flush_web_buffer st) as [parts buffer] eqn:Hf.
      apply step_logon; [exact Ha|]. now apply flushes_iff.
    + destruct (flush_web_buffer st) as [parts buffer] eqn:Hf.
      apply step_logoff; [exact Ha|]. now apply flushes_iff.
    + destruct (flush_web_buffer st) as [parts buffer] eqn:Hf.
      apply step_device_connect; [exact Ha|]. now apply flushes_iff.
    + destruct (flush_web_buffer st) as [parts buffer] eqn:Hf.
      apply step_device_disconnect; [exact Ha|]. now apply flushes_iff.
    + destruct st as [parts buffer]. now apply step_http with u.
Qed.

Lemma runs_iff (events : list Event) :
  forall st st', runs st events st' <-> st' = fold_left loop_body events st.
Proof.
  induction events as [|e events IH]; intros st st'; split.
  - intros H. now inversion H.
  - intros ->. constructor.
  - intros H. inversion H as [|? ? st1 ? ? Hs Hr]; subst.
    apply step_iff in Hs. apply IH in Hr. now subst.
  - intros ->. apply runs_next with (loop_body st e).
    + now apply step_iff.
    + now apply IH.
Qed.

Lemma summarises_function (events : list Event) :
  summarises events (create_summary_from_events events).
Proof.
  destruct events as [|first_event rest]; [constructor|].
  set (events := first_event :: rest).
  set (st := fold_left loop_body events ([header first_event events], [])).
  assert (E : create_summary_from_events events
              = PyStr.join " " (fst (flush_web_buffer st))) by reflexivity.
  rewrite E. destruct (flush_web_buffer st) as [parts buffer] eqn:Hf. cbn [fst].
  apply summarises_bucket
    with (modes := mode (map pc events)) (p := header_pc (map pc events))
         (st := st) (buffer := buffer).
  - apply mode_returns_mode.
  - apply header_pc_defined. discriminate.
  - apply runs_iff. reflexivity.
  - now apply flushes_iff.
Qed.

Lemma summarises_only (events : list Event) (s : string) :
  summarises events s -> s = create_summary_from_events events.
Proof.
  intros H. inversion H as [|first_event rest modes p st parts buffer Hm Hp Hr Hf];
    subst; [reflexivity|].
  assert (Hmode : modes = mode (map pc (first_event :: rest)))
    by (eapply mode_returns_unique; [exact Hm|apply mode_returns_mode]).
  subst modes. rewrite header_pc_defined in Hp by discriminate.
  inversion Hp as [Ep]. clear Hp.
  apply runs_iff in Hr. apply flushes_iff in Hf.
  replace parts with (fst (parts, buffer)) by reflexivity.
  rewrite Hf, Hr, <- Ep. reflexivity.
Qed.

(** C6.  One call on a bucket has one possible result.  Read as a machine
    that starts from a fresh header and an empty buffer, takes the most
    frequent machines in whatever order the hash table gives them before
    they are sorted, and follows the loop turn by turn, the summariser
    always returns a string, and any two runs on the same sequence of events
    return the same string: the one computed by
    [create_summary_from_events]. *)
Theorem summary_is_deterministic (events : list Event) :
  summarises events (create_summary_from_events events) /\
  (forall s1 s2, summarises events s1 -> summarises events s2 -> s1 = s2) /\
  (forall m1 m2, mode_returns (map pc events) m1 ->
                 mode_returns (map pc events) m2 -> m1 = m2) /\
  (forall st e st1 st2, step st e st1 -> step st e st2 -> st1 = st2).
Proof.
  split; [apply summarises_function|]. split; [|split].
  - intros s1 s2 H1 H2.
    now rewrite (summarises_only _ _ H1), (summarises_only _ _ H2).
  - intros m1 m2. apply mode_returns_unique.
  - intros st e st1 st2 H1 H2. apply step_iff in H1, H2. congruence.
Qed.

Lemma summary_is_deterministic_witness :
  let row t p a := {| timestamp := t; user_id := Some "u123"; role := "ITAdmin";
                      pc := p; activity_type := a |} in
  let events := [row (PyStr.hms 8 0 0) "PC-B" logon;
                 row (PyStr.hms 17 0 0) "PC-A" logoff] in
  let narrative :=
    "User u123 (Role: ITAdmin) on PC-A: Logged on at 08:00:00. Logged off at 17:00:00." in
  summarises events narrative /\
  create_summary_from_events events = narrative.
Proof.
  intros row events narrative.
  assert (H : summarises events narrative)
    by exact (proj1 (summary_is_deterministic events)).
  split; [exact H|].
  exact (proj1 (proj2 (summary_is_deterministic events)) _ _
           (proj1 (summary_is_deterministic events)) H).
Defined.
End MachineFacts.

(* ================================================================== *)
(** * Domain extraction on cells *)
(* ================================================================== *)

Section CellFacts.
Import Summary Cells.

Lemma domain_of_string (u : string) : domain_of_cell (Some u) = inl (url_domain u).
Proof.
  unfold domain_of_cell, url_domain.
  destruct (extract_domain_defined u) as [d ->]. reflexivity.
Qed.

Lemma domains_of_strings (urls : list string) :
  domains_of_cells (map Some urls) = inl (map url_domain urls).
Proof.
  induction urls as [|u urls IH]; [reflexivity|].
  cbn [map domains_of_cells]. now rewrite domain_of_string, IH.
Qed.

Lemma domains_of_missing (cells : list (option string)) :
  In None cells -> domains_of_cells cells = inr AttributeError.
Proof.
  induction cells as [|cell cells IH]; [contradiction|].
  intros [->|H]; [reflexivity|].
  cbn [domains_of_cells]. destruct cell as [u|]; [|reflexivity].
  now rewrite domain_of_string, (IH H).
Qed.

(** C9, as the code has it.  On a cell that holds a string the extraction
    never raises, and when the string has no ["//"] the domain is the part
    of the whole url before its first ["/"]; a buffer whose cells all hold
    strings gives the domains the summary counts.  On an empty cell, which
    is read as a missing value, the extraction raises [AttributeError], and
    so does the comprehension over any buffer that holds such a cell. *)
Theorem domain_of_cell_outcome :
  (forall u, exists d, domain_of_cell (Some u) = inl d) /\
  (forall u, PyStr.contains "//" u = false ->
             domain_of_cell (Some u) = inl (PyStr.before_first "/" u)) /\
  (forall urls, domains_of_cells (map Some urls) = inl (map url_domain urls)) /\
  (forall buffer : list Event,
      domains_of_cells (map (fun item => Some (url item)) buffer)
      = inl (domains buffer)) /\
  domain_of_cell None = inr AttributeError /\
  (forall cells, In None cells -> domains_of_cells cells = inr AttributeError).
Proof.
  split; [|split; [|split; [|split; [|split]]]].
  - intros u. exists (url_domain u). apply domain_of_string.
  - intros u H. unfold domain_of_cell.
    now rewrite (proj2 (extract_domain_total u) H).
  - exact domains_of_strings.
  - intros buffer. unfold domains.
    rewrite <- (map_map url Some), domains_of_strings, map_map. reflexivity.
  - reflexivity.
  - exact domains_of_missing.
Qed.

Lemma domain_of_cell_outcome_witness :
  PyStr.contains "//" "intranet/home" = false /\
  domain_of_cell (Some "intranet/home") = inl "intranet" /\
  In None [Some "http://example.com/a"; None] /\
  domains_of_cells [Some "http://example.com/a"; None] = inr AttributeError.
Proof.
  assert (Hin : In (@None string) [Some "http://example.com/a"; None])
    by (right; now left).
  split; [reflexivity|]. split; [|split; [exact Hin|]].
  - exact (proj1 (proj2 domain_of_cell_outcome) "intranet/home" eq_refl).
  - exact (proj2 (proj2 (proj2 (proj2 (proj2 domain_of_cell_outcome)))) _ Hin).
Defined.

(** C9 as stated fails.  A buffered web row whose [url] field is empty:
    the extraction raises instead of giving a fallback domain, alone and
    after a row whose url is well formed. *)
Lemma missing_url_counterexample :
  domain_of_cell None = inr AttributeError /\
  domains_of_cells [Some "http://example.com/a"; None] = inr AttributeError.
Proof. split; reflexivity. Qed.
End CellFacts.
